(** * hole_report: polygon area, hole area and hole percentage of GeoJSON files

    A shallow embedding of [hole_report.py] and the properties of its
    specification.

    Python's [float] is the IEEE 754 binary64 format, taken as Rocq's
    primitive [float]; general facts about it go through [Prim2SF] to the
    [SpecFloat] model of the standard library.  Python's [int] is [Z].  A
    raised Python exception is the outcome [Raises]: the program catches
    none, so its class is not tracked.

    The module [Core] is [ring_area] and [polygon_metrics] on the data model
    of the specification, rings of pairs of floats.  The module [Py] is the
    same two functions on what [json.load] hands them, where a coordinate
    can also be an [int] and a value of any other type.  The built-in [sum]
    adds floats from left to right up to CPython 3.11 and carries a
    compensation term from CPython 3.12 on: [Core.py_sum] is the former,
    [Core.py_sum_compensated] the latter, and [Core.polygon_metrics_under]
    is [polygon_metrics] under either, [Core.polygon_metrics] being the one
    under the former.  The two agree on a polygon with at most one hole,
    and with three holes they can differ in the last bits of the hole area.
    The functions of [Py] and the program built on them take the summation
    as their parameter [s].

    The bytes that [csv.DictWriter.writerow] adds to the output for a row,
    like [json.load] and [os.path.join], are library code and parameters of
    the program. *)

From Stdlib Require Import ZArith Floats String Ascii Bool Lia List.
From Stdlib Require Import DecimalString Permutation.
Import ListNotations.

Set Warnings "-register-all".

(** ** Outcomes of a Python call *)

Inductive result (A : Type) : Type :=
| Returns (a : A)
| Raises.

Arguments Returns {A} a.
Arguments Raises {A}.

Definition bind {A B : Type} (r : result A) (k : A -> result B) : result B :=
  match r with
  | Returns a => k a
  | Raises => Raises
  end.

Notation "x <- r ;; k" := (bind r (fun x => k))
  (at level 61, r at next level, right associativity).

(** ** Python numbers *)

(** An [int], of any size, or a [float]. *)
Inductive number : Type :=
| Int (n : Z)
| Float (x : float).

(** The conversion of an [int] that meets a [float] in an arithmetic
    operation: the nearest binary64 value, ties to even, and
    [OverflowError] where that value would be infinite. *)
Definition float_of_int (n : Z) : result float :=
  match binary_normalize prec emax n 0 false with
  | S754_infinity _ => Raises
  | x => Returns (SF2Prim x)
  end.

Definition as_float (a : number) : result float :=
  match a with
  | Int n => float_of_int n
  | Float x => Returns x
  end.

(** ** The built-in [sum]

    It adds floats from left to right up to CPython 3.11, [Plain], and by a
    compensated summation from CPython 3.12 on, [Compensated]. *)
Inductive summation : Type :=
| Plain
| Compensated.

(** ** The core: ring area and polygon metrics *)

Module Core.

Open Scope float_scope.

Definition vertex : Type := float * float.
Definition ring : Type := list vertex.

(** The summand of the loop body for index [i]:
    [x1, y1 = coords[i]], [x2, y2 = coords[(i + 1) % len(coords)]],
    [x1 * y2 - x2 * y1]. *)
Definition shoelace_term (coords : ring) (i : nat) : float :=
  let '(x1, y1) := nth i coords (0, 0) in
  let '(x2, y2) := nth ((i + 1) mod length coords) coords (0, 0) in
  x1 * y2 - x2 * y1.

(** [ring_area]: [area] starts at [0.0], the loop runs over
    [range(len(coords))], the result is [abs(area) / 2.0]. *)
Definition ring_area (coords : ring) : float :=
  match coords with
  | [] => 0
  | _ :: _ =>
      let area :=
        fold_left (fun area i => area + shoelace_term coords i)
                  (seq 0 (length coords)) 0 in
      abs area / 2
  end.

(** [sum(...)] up to CPython 3.11: accumulation from left to right.
    Python starts from the integer [0]: it is converted to [0.0] at the
    first addition, and where there is no item it is the result, equal to
    [0.0] and acting as [0.0] in the subtraction and the division that
    follow. *)
Definition py_sum (l : list float) : float :=
  fold_left (fun acc x => acc + x) l 0.

(** [sum(...)] of floats from CPython 3.12 on: the same running total
    [f_result], and beside it the compensation [c] of Neumaier's summation,
    which collects what each addition lost to rounding; [c] is added at the
    end unless it is zero, infinite or NaN. *)
Definition compensated_step (state : float * float) (x : float) : float * float :=
  let '(f_result, c) := state in
  let t := f_result + x in
  if abs x <=? abs f_result
  then (t, c + ((f_result - t) + x))
  else (t, c + ((x - t) + f_result)).

Definition py_sum_compensated (l : list float) : float :=
  match l with
  | [] => 0
  | first :: rest =>
      let '(f_result, c) := fold_left compensated_step rest (0 + first, 0) in
      if negb (c =? 0) && is_finite c then f_result + c else f_result
  end.

Definition py_sum_under (s : summation) : list float -> float :=
  match s with
  | Plain => py_sum
  | Compensated => py_sum_compensated
  end.

(** Python's [/] on floats raises [ZeroDivisionError] on a zero divisor. *)
Definition py_truediv (x y : float) : result float :=
  if y =? 0 then Raises else Returns (x / y).

Definition polygon_metrics (rings : list ring) : result (float * float * float) :=
  match rings with
  | [] => Returns (0, 0, 0)
  | outer :: holes =>
      let outer_area := ring_area outer in
      let hole_area := py_sum (map ring_area holes) in
      let polygon_area := outer_area - hole_area in
      if polygon_area <=? 0 then
        Returns (polygon_area, hole_area, 0)
      else
        q <- py_truediv hole_area polygon_area ;;
        Returns (polygon_area, hole_area, q * 100)
  end.


End Core.

(** ** Parsed documents

    What [json.load] returns: [None], [bool], [int], [float], [str], [list]
    and [dict].  An object keeps its members in document order.  A number
    written without fraction and exponent is an [int], of any size; any
    other is a [float]. *)

Inductive json : Type :=
| JNull
| JBool (b : bool)
| JInt (n : Z)
| JNum (x : float)
| JStr (s : string)
| JArr (items : list json)
| JObj (members : list (string * json)).

Module Py.

Open Scope float_scope.

(** [dict(members)[key]]: a later member of the same name replaces an
    earlier one. *)
Definition dict_get (members : list (string * json)) (key : string) : option json :=
  fold_left (fun found kv => if String.eqb (fst kv) key then Some (snd kv) else found)
            members None.

(** The keys of [dict(members)], each at the place of its first member. *)
Fixpoint dict_keys (members : list (string * json)) : list string :=
  match members with
  | [] => []
  | (k, _) :: rest => k :: filter (fun k' => negb (String.eqb k' k)) (dict_keys rest)
  end.

(** [d.get(key, default)]; only a [dict] has the method. *)
Definition get (d : json) (key : string) (default : json) : result json :=
  match d with
  | JObj members =>
      Returns (match dict_get members key with Some v => v | None => default end)
  | _ => Raises
  end.

(** [v == s] for a string literal [s]. *)
Definition eq_str (v : json) (s : string) : bool :=
  match v with
  | JStr t => String.eqb t s
  | _ => false
  end.

(** Truth value: [None], [False], zero, and the empty string, list and dict
    are false. *)
Definition truthy (v : json) : bool :=
  match v with
  | JNull => false
  | JBool b => b
  | JInt n => negb (n =? 0)%Z
  | JNum x => negb (x =? 0)
  | JStr s => negb (String.eqb s "")
  | JArr items => match items with [] => false | _ => true end
  | JObj members => match members with [] => false | _ => true end
  end.

Fixpoint chars (s : string) : list json :=
  match s with
  | EmptyString => []
  | String c rest => JStr (String c EmptyString) :: chars rest
  end.

(** The items a [for] loop draws from [v]: the elements of a list, the
    characters of a string, the keys of a dict; anything else is not
    iterable. *)
Definition iter (v : json) : result (list json) :=
  match v with
  | JArr items => Returns items
  | JStr s => Returns (chars s)
  | JObj members => Returns (map JStr (dict_keys members))
  | _ => Raises
  end.

(** A value the arithmetic of [ring_area] accepts: an [int], a [float], or
    a [bool], which Python counts as the integer 0 or 1. *)
Definition number_of (v : json) : result number :=
  match v with
  | JInt n => Returns (Int n)
  | JNum x => Returns (Float x)
  | JBool b => Returns (Int (if b then 1 else 0))
  | _ => Raises
  end.

(** [a * b] and [a - b]: exact on two [int]s; otherwise on floats, an [int]
    being converted first. *)
Definition mul (a b : number) : result number :=
  match a, b with
  | Int m, Int n => Returns (Int (m * n))
  | _, _ => x <- as_float a ;; y <- as_float b ;; Returns (Float (x * y))
  end.

Definition sub (a b : number) : result number :=
  match a, b with
  | Int m, Int n => Returns (Int (m - n))
  | _, _ => x <- as_float a ;; y <- as_float b ;; Returns (Float (x - y))
  end.

(** [area += t], where [area] is a float. *)
Definition add_to (area : float) (t : number) : result float :=
  y <- as_float t ;; Returns (area + y).

Fixpoint all {A B : Type} (f : A -> result B) (l : list A) : result (list B) :=
  match l with
  | [] => Returns []
  | a :: rest => b <- f a ;; bs <- all f rest ;; Returns (b :: bs)
  end.

(** [x, y = v] followed by the products and the difference of the loop
    body: they go through exactly for a two-element list of numbers (a
    two-character string or a two-key dict unpacks as well, but into strings,
    on which [x1 * y2 - x2 * y1] raises). *)
Definition vertex_of (v : json) : result (number * number) :=
  match v with
  | JArr [a; b] => x <- number_of a ;; y <- number_of b ;; Returns (x, y)
  | _ => Raises
  end.

(** The argument of [ring_area]: a false value takes the early return, as
    the empty ring does; otherwise [coords[i]] must index a list of
    vertices. *)
Definition ring_of (coords : json) : result (list (number * number)) :=
  if truthy coords then
    match coords with
    | JArr items => all vertex_of items
    | _ => Raises
    end
  else Returns [].

(** The argument of [polygon_metrics], likewise. *)
Definition rings_of (rings : json) : result (list (list (number * number))) :=
  if truthy rings then
    match rings with
    | JArr items => all ring_of items
    | _ => Raises
    end
  else Returns [].

(** The summand of the loop body of [ring_area] for index [i], on
    numbers. *)
Definition shoelace_term (coords : list (number * number)) (i : nat) : result number :=
  let '(x1, y1) := nth i coords (Float 0, Float 0) in
  let '(x2, y2) := nth ((i + 1) mod length coords) coords (Float 0, Float 0) in
  a <- mul x1 y2 ;; b <- mul x2 y1 ;; sub a b.

(** [ring_area] on numbers: as [Core.ring_area], with the conversions that
    can raise. *)
Definition ring_area (coords : list (number * number)) : result float :=
  match coords with
  | [] => Returns 0
  | _ :: _ =>
      area <- fold_left (fun area i =>
                           acc <- area ;; t <- shoelace_term coords i ;; add_to acc t)
                        (seq 0 (length coords)) (Returns 0) ;;
      Returns (abs area / 2)
  end.

(** What [sum] returns for the given hole areas: the integer [0] where
    there is none, else the float they add up to under the summation
    [s]. *)
Definition sum (s : summation) (areas : list float) : number :=
  match areas with
  | [] => Int 0
  | _ :: _ => Float (Core.py_sum_under s areas)
  end.

(** [polygon_metrics] on numbers.  The hole area enters the subtraction
    and the division as a float, the integer [0] as [0.0]; it is returned
    as [sum] gave it. *)
Definition polygon_metrics (s : summation) (rings : list (list (number * number)))
  : result (float * number * float) :=
  match rings with
  | [] => Returns (0, Float 0, 0)
  | outer :: holes =>
      outer_area <- ring_area outer ;;
      areas <- all ring_area holes ;;
      let hole_area := sum s areas in
      h <- as_float hole_area ;;
      let polygon_area := outer_area - h in
      if polygon_area <=? 0 then
        Returns (polygon_area, hole_area, 0)
      else
        q <- Core.py_truediv h polygon_area ;;
        Returns (polygon_area, hole_area, q * 100)
  end.

End Py.

(** [polygon_metrics] called on a parsed value. *)
Definition polygon_metrics_of (s : summation) (coords : json)
  : result (float * number * float) :=
  rings <- Py.rings_of coords ;; Py.polygon_metrics s rings.

(** ** The traversal: [process_geojson] *)

(** What the generator yields: [index, polygon_area, hole_area, hole_pct]. *)
Definition item : Type := Z * float * number * float.

Definition item_index (it : item) : Z :=
  let '(index, _, _, _) := it in index.

(** How a generator stops: it runs out, or an exception leaves it. *)
Inductive ending : Type := Exhausted | Raised.

(** The state after a stretch of the loop: the counter [index], the items
    yielded in order, and how the stretch ended. *)
Definition run : Type := Z * list item * ending.

Definition item_metrics (it : item) : float * number * float :=
  let '(_, polygon_area, hole_area, hole_pct) := it in
  (polygon_area, hole_area, hole_pct).

Definition run_items (r : run) : list item := snd (fst r).
Definition run_ending (r : run) : ending := snd r.

Definition yield (index : Z) (m : float * number * float) : item :=
  let '(polygon_area, hole_area, hole_pct) := m in
  (index, polygon_area, hole_area, hole_pct).

(** [for poly in coords: index += 1; ... yield ...] *)
Fixpoint each_polygon (s : summation) (index : Z) (polys : list json) : run :=
  match polys with
  | [] => (index, [], Exhausted)
  | poly :: rest =>
      let index := (index + 1)%Z in
      match polygon_metrics_of s poly with
      | Raises => (index, [], Raised)
      | Returns m =>
          let '(index', items, e) := each_polygon s index rest in
          (index', yield index m :: items, e)
      end
  end.

(** The body of [for feat in features] for one feature. *)
Definition feature (s : summation) (index : Z) (feat : json) : run :=
  match
    (geom <- Py.get feat "geometry" (JObj []) ;;
     gtype <- Py.get geom "type" JNull ;;
     coords <- Py.get geom "coordinates" (JArr []) ;;
     Returns (gtype, coords))
  with
  | Raises => (index, [], Raised)
  | Returns (gtype, coords) =>
      if Py.eq_str gtype "Polygon" then
        let index := (index + 1)%Z in
        match polygon_metrics_of s coords with
        | Raises => (index, [], Raised)
        | Returns m => (index, [yield index m], Exhausted)
        end
      else if Py.eq_str gtype "MultiPolygon" then
        match Py.iter coords with
        | Raises => (index, [], Raised)
        | Returns polys => each_polygon s index polys
        end
      else (index, [], Exhausted)
  end.

Fixpoint each_feature (s : summation) (index : Z) (features : list json) : run :=
  match features with
  | [] => (index, [], Exhausted)
  | feat :: rest =>
      match feature s index feat with
      | (index', items, Raised) => (index', items, Raised)
      | (index', items, Exhausted) =>
          let '(index'', items', e) := each_feature s index' rest in
          (index'', items ++ items', e)
      end
  end.

(** The part of [process_geojson] after [json.load]. *)
Definition process_document (s : summation) (data : json) : list item * ending :=
  match
    (t <- Py.get data "type" JNull ;;
     features <- (if Py.eq_str t "FeatureCollection"
                  then Py.get data "features" (JArr [])
                  else Returns (JArr [data])) ;;
     Py.iter features)
  with
  | Raises => ([], Raised)
  | Returns features =>
      let '(_, items, e) := each_feature s 0 features in (items, e)
  end.

(** ** The program: files, [process_geojson] and [main] *)

(** The file system as the program sees it: [os.listdir], reading a file
    as text, and whether a path can be opened for writing and takes what is
    written to it. *)
Record filesystem : Type := {
  listdir : string -> result (list string);
  read_text : string -> result string;
  writable : string -> bool
}.

Record report_row : Type := {
  file : string;
  feature_index : Z;
  polygon_area : float;
  hole_area : number;
  hole_percent : float
}.

(** The table handed to [csv.DictWriter]: the header and the rows. *)
Record report : Type := {
  fieldnames : list string;
  rows : list report_row
}.

Definition lower_char (c : ascii) : ascii :=
  let n := nat_of_ascii c in
  if (65 <=? n)%nat && (n <=? 90)%nat then ascii_of_nat (n + 32) else c.

Fixpoint lower (s : string) : string :=
  match s with
  | EmptyString => EmptyString
  | String c rest => String (lower_char c) (lower rest)
  end.

Definition endswith (s suffix : string) : bool :=
  let n := String.length s in
  let k := String.length suffix in
  (k <=? n)%nat && String.eqb (substring (n - k) k s) suffix.

(** [filename.lower().endswith(('.json', '.geojson'))] *)
Definition selected (filename : string) : bool :=
  endswith (lower filename) ".json" || endswith (lower filename) ".geojson".

Definition row_of (filename : string) (it : item) : report_row :=
  let '(index, polygon_area, hole_area, hole_pct) := it in
  {| file := filename; feature_index := index; polygon_area := polygon_area;
     hole_area := hole_area; hole_percent := hole_pct |}.

(** The line [writer.writeheader()] writes: the column names, separated by
    commas, and the line terminator of the [csv] module, carriage return and
    line feed, which a file opened with [newline=''] receives as it is. *)
Definition header_line : string :=
  ("file,feature_index,polygon_area,hole_area,hole_percent"
   ++ String (ascii_of_nat 13) (String (ascii_of_nat 10) EmptyString))%string.

Section Program.

(** The summation of the interpreter that runs the program. *)
Variable s : summation.

(** [json.load] on the text of a file, and [os.path.join]: library code. *)
Variable json_load : string -> result json.
Variable path_join : string -> string -> string.

(** [writer.writerow(row)] on the output file: the bytes the row adds to
    it, or the exception of the text layer where a value of the row cannot
    be encoded, as a file name that is not valid in the encoding.  Library
    code. *)
Variable write_row : report_row -> result string.

(** [with open(path, 'r', encoding='utf-8') as f: data = json.load(f)] *)
Definition loaded (fs : filesystem) (path : string) : result json :=
  text <- read_text fs path ;; json_load text.

Definition process_geojson (fs : filesystem) (path : string) : list item * ending :=
  match loaded fs path with
  | Raises => ([], Raised)
  | Returns data => process_document s data
  end.

(** The loop of [main] over the directory listing, building [rows]. *)
Fixpoint collect (fs : filesystem) (folder : string) (filenames : list string)
  : result (list report_row) :=
  match filenames with
  | [] => Returns []
  | filename :: rest =>
      if selected filename then
        match process_geojson fs (path_join folder filename) with
        | (_, Raised) => Raises
        | (items, Exhausted) =>
            more <- collect fs folder rest ;;
            Returns (map (row_of filename) items ++ more)
        end
      else collect fs folder rest
  end.

(** [for row in rows: writer.writerow(row)]: the bytes written, and
    whether every row was written or one raised. *)
Fixpoint write_rows (rows : list report_row) : string * ending :=
  match rows with
  | [] => (EmptyString, Exhausted)
  | row :: rest =>
      match write_row row with
      | Raises => (EmptyString, Raised)
      | Returns line =>
          let '(bytes, e) := write_rows rest in ((line ++ bytes)%string, e)
      end
  end.

(** [main] with the parsed arguments [folder] and [output]: the table written
    to [output], when it was written to its end, or the exception that ends
    the run before that.  The output is opened only after every selected
    file was processed.  The line printed at the very end is not part of
    the model. *)
Definition main (fs : filesystem) (folder output : string) : result report :=
  filenames <- listdir fs folder ;;
  rows <- collect fs folder filenames ;;
  if writable fs output then
    match write_rows rows with
    | (_, Exhausted) =>
        Returns {| fieldnames := ["file"; "feature_index"; "polygon_area";
                                  "hole_area"; "hole_percent"]%string;
                   rows := rows |}
    | (_, Raised) => Raises
    end
  else Raises.

(** What [main] leaves in the output file: nothing where the run ends
    before the file is opened, [None]; otherwise the header line and the
    lines of the rows written, all of them or those before the row that
    raised. *)
Definition output_file (fs : filesystem) (folder output : string) : option string :=
  match (filenames <- listdir fs folder ;; collect fs folder filenames) with
  | Raises => None
  | Returns rows =>
      if writable fs output
      then Some (header_line ++ fst (write_rows rows))%string
      else None
  end.

End Program.

(** ** The specification's own words

    Definitions that follow the text of the specification, to be compared
    with the code above. *)

Module Spec.

Import Core.
Open Scope float_scope.

(** Section 4.1: the consecutive vertex pairs of a ring, the wrap-around
    pair from the last vertex to the first included. *)
Definition consecutive_pairs (r : ring) : list (vertex * vertex) :=
  combine r (tl r ++ firstn 1 r).

(** The summand [x_i * y_{i+1} - x_{i+1} * y_i] of a pair. *)
Definition cross (p : vertex * vertex) : float :=
  let '((xi, yi), (xj, yj)) := p in xi * yj - xj * yi.

(** The sum over the pairs, in ring order. *)
Definition shoelace_sum (r : ring) : float :=
  fold_left (fun acc p => acc + cross p) (consecutive_pairs r) 0.

(** Section 4.2: outer area, hole area, polygon area, hole percentage. *)
Definition outer_area (rings : list ring) : float :=
  ring_area (nth 0 rings []).

Definition hole_area (rings : list ring) : float :=
  py_sum (map ring_area (skipn 1 rings)).

Definition polygon_area (rings : list ring) : float :=
  outer_area rings - hole_area rings.

Definition hole_percent (rings : list ring) : float :=
  if polygon_area rings <=? 0 then 0
  else hole_area rings / polygon_area rings * 100.

(** The triple of results. *)
Definition metrics (rings : list ring) : float * float * float :=
  match rings with
  | [] => (0, 0, 0)
  | _ :: _ => (polygon_area rings, hole_area rings, hole_percent rings)
  end.

(** Section 4.2 with the sum written out: the areas of the holes, the rings
    after the first, added to the total one after another in ring order. *)
Fixpoint add_holes (total : float) (holes : list ring) : float :=
  match holes with
  | [] => total
  | hole :: rest => add_holes (total + ring_area hole) rest
  end.

(** What the addition [a + b] loses to rounding, as the compensated
    summation measures it: from the operand of larger magnitude the rounded
    sum is taken away again, and the other operand added. *)
Definition lost (a b : float) : float :=
  if abs b <=? abs a then (a - (a + b)) + b else (b - (a + b)) + a.

(** The losses of the additions that [add_holes] makes. *)
Fixpoint losses (total : float) (holes : list ring) : list float :=
  match holes with
  | [] => []
  | hole :: rest =>
      lost total (ring_area hole) :: losses (total + ring_area hole) rest
  end.

Fixpoint add_all (total : float) (l : list float) : float :=
  match l with
  | [] => total
  | x :: rest => add_all (total + x) rest
  end.

(** The hole area under either summation: the plain total from zero; or,
    compensated, the same total corrected by the total of the losses of all
    additions but the first, where that correction is a finite number other
    than zero. *)
Definition hole_area_under (s : summation) (rings : list ring) : float :=
  match s with
  | Plain => add_holes 0 (tl rings)
  | Compensated =>
      match tl rings with
      | [] => 0
      | first :: rest =>
          let total := add_holes (0 + ring_area first) rest in
          let correction := add_all 0 (losses (0 + ring_area first) rest) in
          if is_finite correction && negb (correction =? 0)
          then total + correction
          else total
      end
  end.

Definition metrics_under (s : summation) (rings : list ring) : float * float * float :=
  match rings with
  | [] => (0, 0, 0)
  | outer :: _ =>
      let hole := hole_area_under s rings in
      let polygon := ring_area outer - hole in
      (polygon, hole, if polygon <=? 0 then 0 else hole / polygon * 100)
  end.

(** The triple as Python objects: the hole area of a polygon of one ring
    is the integer [0], which [sum] returns where it is given nothing. *)
Definition values (s : summation) (rings : list ring) : float * number * float :=
  let '(polygon_area, hole_area, hole_pct) := metrics_under s rings in
  (polygon_area,
   match rings with
   | [_] => Int 0
   | _ => Float hole_area
   end,
   hole_pct).

(** Section 6: the geometry traversal input.  A member of an object, or
    the default where the object has none. *)
Definition member (d : json) (key : string) (default : json) : json :=
  match d with
  | JObj members =>
      match Py.dict_get members key with Some v => v | None => default end
  | _ => default
  end.

Definition elements (v : json) : list json :=
  match Py.iter v with
  | Returns l => l
  | Raises => []
  end.

(** The features of a document: those of a feature collection, or the
    document itself. *)
Definition features (data : json) : list json :=
  if Py.eq_str (member data "type" JNull) "FeatureCollection"
  then elements (member data "features" (JArr []))
  else [data].

(** The polygon instances of a feature, each as its ring list: one for a
    [Polygon], the constituent polygons of a [MultiPolygon], none for any
    other geometry. *)
Definition polygons_of_feature (feat : json) : list json :=
  let geom := member feat "geometry" (JObj []) in
  let gtype := member geom "type" JNull in
  let coords := member geom "coordinates" (JArr []) in
  if Py.eq_str gtype "Polygon" then [coords]
  else if Py.eq_str gtype "MultiPolygon" then elements coords
  else [].

(** The polygon instances of a document, in document order. *)
Definition polygons (data : json) : list json :=
  flat_map polygons_of_feature (features data).

(** The feature indices [1, 2, ..., n]. *)
Definition indices (n : nat) : list Z := map Z.of_nat (seq 1 n).

(** A feature object that has no geometry, or whose geometry object has no
    type, or a type other than the two recognized. *)
Definition unsupported (feat : json) : bool :=
  match feat with
  | JObj members =>
      match Py.dict_get members "geometry" with
      | None => true
      | Some (JObj geom) =>
          match Py.dict_get geom "type" with
          | None => true
          | Some gtype =>
              negb (Py.eq_str gtype "Polygon") && negb (Py.eq_str gtype "MultiPolygon")
          end
      | Some _ => false
      end
  | _ => false
  end.

(** The coordinate structure of a [Polygon]: a list of rings, each a list
    of [[x, y]] pairs. *)
Definition json_of_vertex (v : vertex) : json := JArr [JNum (fst v); JNum (snd v)].
Definition json_of_ring (r : ring) : json := JArr (map json_of_vertex r).
Definition json_of_rings (rings : list ring) : json := JArr (map json_of_ring rings).

(** The same with coordinates that are numbers of either kind. *)
Definition json_of_number (a : number) : json :=
  match a with
  | Int n => JInt n
  | Float x => JNum x
  end.

Definition json_of_position (p : number * number) : json :=
  JArr [json_of_number (fst p); json_of_number (snd p)].

Definition json_of_polygon (rings : list (list (number * number))) : json :=
  JArr (map (fun r => JArr (map json_of_position r)) rings).

Definition floats (r : ring) : list (number * number) :=
  map (fun v => (Float (fst v), Float (snd v))) r.

Definition polygon_feature (rings : list ring) : json :=
  JObj [("type", JStr "Feature");
        ("geometry", JObj [("type", JStr "Polygon");
                           ("coordinates", json_of_rings rings)])]%string.

Definition multipolygon_feature (polys : list (list ring)) : json :=
  JObj [("type", JStr "Feature");
        ("geometry", JObj [("type", JStr "MultiPolygon");
                           ("coordinates", JArr (map json_of_rings polys))])]%string.

Definition feature_collection (features : list json) : json :=
  JObj [("type", JStr "FeatureCollection"); ("features", JArr features)]%string.









(** Section 6, report output: the rows of the selected files in listing
    order, each file's items in the order given, under the file's name. *)
Definition report_rows (items_of : string -> list item) (filenames : list string)
  : list report_row :=
  flat_map (fun f => map (row_of f) (items_of f)) (filter selected filenames).

End Spec.

(** ** Predicates on binary64 values *)

(** [x] is not a number, or its sign bit is [s]. *)
Definition nan_or_sign (s : bool) (x : spec_float) : Prop :=
  match x with
  | S754_nan => True
  | S754_zero s' | S754_infinity s' | S754_finite s' _ _ => s' = s
  end.

(** ** Concrete inputs *)

Module Examples.

Import Core.
Open Scope float_scope.

(** The square of the specification, counter-clockwise and clockwise. *)
Definition square_ccw : ring := [(0, 0); (4, 0); (4, 4); (0, 4)].
Definition square_cw : ring := [(0, 4); (4, 4); (4, 0); (0, 0)].

(** One vertex with both coordinates [2.0 ** 600]: finite, but the products
    of the loop body overflow. *)
Definition far_point : ring := [(0x1p+600, 0x1p+600)].

(** Two such vertices on the axes. *)
Definition far_segment : ring := [(0x1p+600, 0); (0, 0x1p+600)].

(** A quadrilateral whose first vertex lies at [x = 2.0 ** 53]. *)
Definition long_quad : ring := [(0x1p+53, 0); (0, 1); (-1, 1); (-1, 0)].

(** A 10 by 10 square with a 2 by 2 hole, and the two rings the other way
    round: a hole larger than the outer ring. *)
Definition holed_square : list ring :=
  [[(0, 0); (10, 0); (10, 10); (0, 10)]; [(1, 1); (3, 1); (3, 3); (1, 3)]].


(** A right triangle. *)
Definition triangle : ring := [(0, 0); (4, 0); (0, 3)].



(** A feature without a geometry, [{"type": "Feature"}]; a geometry without
    a type; a point; a line. *)
Definition bare_feature : json := JObj [("type", JStr "Feature")]%string.

Definition untyped_geometry : json :=
  JObj [("type", JStr "Feature");
        ("geometry", JObj [("coordinates", JArr [])])]%string.

Definition point_feature : json :=
  JObj [("type", JStr "Feature");
        ("geometry", JObj [("type", JStr "Point");
                           ("coordinates", JArr [JNum 1; JNum 2])])]%string.


(** A triangle given with a third coordinate in every position, which the
    data model of the specification does not have. *)
Definition raised_triangle : json :=
  JObj [("type", JStr "Feature");
        ("geometry",
         JObj [("type", JStr "Polygon");
               ("coordinates",
                JArr [JArr [JArr [JNum 0; JNum 0; JNum 5];
                            JArr [JNum 4; JNum 0; JNum 5];
                            JArr [JNum 0; JNum 3; JNum 5]]])])]%string.



(** The square with integer coordinates, in a feature that has properties;
    and a square of side [10 ** 200], integers too. *)
Definition integer_square : json :=
  JObj [("type", JStr "Feature");
        ("properties", JObj [("name", JStr "lot")]);
        ("geometry",
         JObj [("type", JStr "Polygon");
               ("coordinates",
                JArr [JArr [JArr [JInt 0; JInt 0]; JArr [JInt 4; JInt 0];
                            JArr [JInt 4; JInt 4]; JArr [JInt 0; JInt 4]]])])]%string.


(** A collection of the integer square and a multipolygon of the triangle
    and the holed square. *)
Definition lots_collection : json :=
  Spec.feature_collection
    [integer_square; Spec.multipolygon_feature [[triangle]; holed_square]].

(** A collection: the square, a point, a feature without geometry, and a
    multipolygon of the triangle and the holed square. *)
Definition mixed_collection : json :=
  Spec.feature_collection
    [Spec.polygon_feature [square_ccw]; point_feature; bare_feature;
     Spec.multipolygon_feature [[triangle]; holed_square]].

(** The text [{"type": "Feature"}], the text of a feature holding the
    square, and a text that is not JSON. *)
Definition quoted (s : string) : string :=
  (String (ascii_of_nat 34) s ++ String (ascii_of_nat 34) EmptyString)%string.

Definition bare_text : string :=
  ("{" ++ quoted "type" ++ ": " ++ quoted "Feature" ++ "}")%string.

Definition square_text : string :=
  ("{" ++ quoted "type" ++ ": " ++ quoted "Feature" ++ ", "
       ++ quoted "geometry" ++ ": {" ++ quoted "type" ++ ": " ++ quoted "Polygon"
       ++ ", " ++ quoted "coordinates"
       ++ ": [[[0.0, 0.0], [4.0, 0.0], [4.0, 4.0], [0.0, 4.0]]]}}")%string.


(** The text of [lots_collection]. *)
Definition lots_text : string :=
  ("{" ++ quoted "type" ++ ": " ++ quoted "FeatureCollection" ++ ", "
       ++ quoted "features" ++ ": [{" ++ quoted "type" ++ ": " ++ quoted "Feature"
       ++ ", " ++ quoted "properties" ++ ": {" ++ quoted "name" ++ ": "
       ++ quoted "lot" ++ "}, " ++ quoted "geometry" ++ ": {" ++ quoted "type"
       ++ ": " ++ quoted "Polygon" ++ ", " ++ quoted "coordinates"
       ++ ": [[[0, 0], [4, 0], [4, 4], [0, 4]]]}}, {" ++ quoted "type" ++ ": "
       ++ quoted "Feature" ++ ", " ++ quoted "geometry" ++ ": {" ++ quoted "type"
       ++ ": " ++ quoted "MultiPolygon" ++ ", " ++ quoted "coordinates"
       ++ ": [[[[0.0, 0.0], [4.0, 0.0], [0.0, 3.0]]], "
       ++ "[[[0.0, 0.0], [10.0, 0.0], [10.0, 10.0], [0.0, 10.0]], "
       ++ "[[1.0, 1.0], [3.0, 1.0], [3.0, 3.0], [1.0, 3.0]]]]}}]}")%string.

(** [json.load] on the texts of the examples: [bare_text] parses to
    [bare_feature], [square_text] to the square as a [Polygon] feature and
    [lots_text] to [lots_collection]; [broken_text], like the text of a file
    of notes, is a syntax error.  No other text is loaded below. *)
Definition load (text : string) : result json :=
  if String.eqb text bare_text then Returns bare_feature
  else if String.eqb text square_text then Returns (Spec.polygon_feature [square_ccw])
  else if String.eqb text lots_text then Returns lots_collection
  else Raises.

Definition join (folder filename : string) : string :=
  (folder ++ "/" ++ filename)%string.

(** The folder [data] holding the given files, name and text. *)
Definition folder_of (contents : list (string * string)) : filesystem :=
  {| listdir := fun folder =>
       if String.eqb folder "data" then Returns (map fst contents) else Raises;
     read_text := fun path =>
       match find (fun kv => String.eqb (join "data" (fst kv)) path) contents with
       | Some kv => Returns (snd kv)
       | None => Raises
       end;
     writable := fun _ => true |}.



Definition noted_folder (notes : string) : filesystem :=
  folder_of [("a.json", bare_text); ("B.GeoJSON", square_text);
             ("notes.txt", notes)]%string.

Definition header : list string :=
  ["file"; "feature_index"; "polygon_area"; "hole_area"; "hole_percent"]%string.

(** [writerow] on the rows of the examples.  The text of a float is what
    [repr] gives for it; only the floats that the examples write are
    listed. *)
Definition float_text (x : float) : result string :=
  if x =? 0 then Returns "0.0"%string
  else if x =? 4 then Returns "4.0"%string
  else if x =? 6 then Returns "6.0"%string
  else if x =? 16 then Returns "16.0"%string
  else if x =? 96 then Returns "96.0"%string
  else if x =? 0x1.0aaaaaaaaaaaap+2 then Returns "4.166666666666666"%string
  else Raises.

Definition number_text (a : number) : result string :=
  match a with
  | Int n => Returns (NilZero.string_of_int (Z.to_int n))
  | Float x => float_text x
  end.

(** A name of printable ASCII characters without comma and quote is written
    as it is. *)
Fixpoint plain_name (s : string) : bool :=
  match s with
  | EmptyString => true
  | String c rest =>
      let n := nat_of_ascii c in
      (32 <? n)%nat && (n <? 127)%nat && negb (n =? 34)%nat && negb (n =? 44)%nat
      && plain_name rest
  end.

(** The line of a row with such a name; a name holding the byte 255, which
    no text has in the encoding of the output, raises, as does whatever
    else is not listed here and not met below. *)
Definition write (row : report_row) : result string :=
  if plain_name (file row) then
    a <- float_text (polygon_area row) ;;
    h <- number_text (hole_area row) ;;
    p <- float_text (hole_percent row) ;;
    Returns (file row ++ "," ++ NilZero.string_of_int (Z.to_int (feature_index row))
             ++ "," ++ a ++ "," ++ h ++ "," ++ p
             ++ String (ascii_of_nat 13) (String (ascii_of_nat 10) EmptyString))%string
  else Raises.

(** A line of the output file: the text and the line terminator. *)
Definition line (text : string) : string :=
  (text ++ String (ascii_of_nat 13) (String (ascii_of_nat 10) EmptyString))%string.

(** A folder of three files, two of them selected; the same files listed
    in another order; and a folder whose one file has a name that cannot be
    encoded. *)
Definition lots_folder : filesystem :=
  folder_of [("b.geojson", lots_text); ("notes.txt", "x"); ("A.JSON", square_text)]%string.

Definition relisted_folder : filesystem :=
  folder_of [("A.JSON", square_text); ("notes.txt", "x"); ("b.geojson", lots_text)]%string.

Definition unencodable_folder : filesystem :=
  folder_of [(String (ascii_of_nat 255) ".json", square_text)]%string.

End Examples.

Definition is_zero_sf (x : spec_float) : bool :=
  match x with
  | S754_zero _ => true
  | _ => false
  end.

(** [x] and [y] are the same value, up to the sign of a zero. *)
Definition same_value (x y : spec_float) : Prop :=
  x = y \/ (is_zero_sf x = true /\ is_zero_sf y = true).

(** Every summand of the loop of [ring_area] is finite: no product or
    difference of the loop body overflows or is NaN. *)
Definition terms_finite (r : Core.ring) : bool :=
  forallb (fun i => is_finite (Core.shoelace_term r i)) (seq 0 (length r)).

(** The counter values [index + 1, ..., index + n]. *)
Definition count_from (index : Z) (n : nat) : list Z :=
  map (fun k => (index + Z.of_nat k)%Z) (seq 1 n).

(** A stretch of the loop started at [index] numbers its items from
    [index + 1] on, and leaves the counter at the last number given. *)
Definition counts_from (index : Z) (r : run) : Prop :=
  map item_index (run_items r) = count_from index (length (run_items r))
  /\ (run_ending r = Exhausted ->
      fst (fst r) = (index + Z.of_nat (length (run_items r)))%Z).

(** A stretch that is not cut short yields the metrics of the given
    polygons, one item each, in order. *)
Definition yields_for (s : summation) (polys : list json) (r : run) : Prop :=
  run_ending r = Exhausted ->
  map (fun it => Returns (item_metrics it)) (run_items r)
  = map (polygon_metrics_of s) polys.



(** [x] is not infinite, and if finite its bits end below position [k]:
    its magnitude is less than [2 ^ k]. *)
Definition below (k : Z) (x : spec_float) : Prop :=
  match x with
  | S754_finite _ m e => (Z.pos (digits2_pos m) + e <= k)%Z /\ (e <= emax - prec)%Z
  | S754_infinity _ => False
  | _ => True
  end.

(** ** Changes of a ring and of a hole list *)

Module Change.

Import Core.
Open Scope float_scope.

(** Every vertex with its coordinates exchanged, [(y, x)] for [(x, y)]. *)
Definition swap_xy (r : ring) : ring := map (fun v => (snd v, fst v)) r.

(** Every vertex mirrored in the y axis, [(-x, y)] for [(x, y)]. *)
Definition mirror_x (r : ring) : ring := map (fun v => (- fst v, snd v)) r.

(** The ring with its first vertex repeated at the end, as GeoJSON writes a
    linear ring. *)
Definition closed (r : ring) : ring := r ++ firstn 1 r.


End Change.

Definition is_nan_sf (x : spec_float) : bool :=
  match x with
  | S754_nan => true
  | _ => false
  end.


(** An item with its index moved on by [k], and a stretch of the loop
    started [k] later. *)
Definition renumber (k : Z) (it : item) : item :=
  let '(index, polygon_area, hole_area, hole_pct) := it in
  ((index + k)%Z, polygon_area, hole_area, hole_pct).

Definition later (k : Z) (r : run) : run :=
  let '(index, items, e) := r in ((index + k)%Z, map (renumber k) items, e).

(** * Properties *)

(** ** Facts on the binary64 operations *)

Section SignFacts.

Lemma binary_round_aux_sign (s : bool) (m e : Z) (l : location) :
  nan_or_sign s (binary_round_aux prec emax s m e l).
Proof.
  unfold binary_round_aux.
  destruct (shr_fexp prec emax m e l) as [mrs' e'].
  destruct (shr_fexp prec emax _ e' loc_Exact) as [mrs'' e''].
  destruct (shr_m mrs''); simpl; trivial.
  destruct (Z.leb e'' _); simpl; trivial.
Qed.

Lemma binary_round_sign (s : bool) (m : positive) (e : Z) :
  nan_or_sign s (binary_round prec emax s m e).
Proof.
  unfold binary_round.
  destruct (shl_align m e _) as [mz ez].
  apply binary_round_aux_sign.
Qed.

Lemma SFabs_sign (x : spec_float) : nan_or_sign false (SFabs x).
Proof. destruct x; simpl; trivial. Qed.

Lemma SFdiv_sign (x y : spec_float) :
  nan_or_sign false x -> nan_or_sign false y -> nan_or_sign false (SF64div x y).
Proof.
  unfold SF64div, SFdiv.
  destruct x as [sx|sx| |sx mx ex], y as [sy|sy| |sy my ey]; simpl;
    intros Hx Hy; subst; trivial.
  destruct (SFdiv_core_binary prec emax (Z.pos mx) ex (Z.pos my) ey) as [[mz ez] lz].
  apply binary_round_aux_sign.
Qed.


Lemma SFadd_sign (x y : spec_float) :
  nan_or_sign false x -> nan_or_sign false y -> nan_or_sign false (SF64add x y).
Proof.
  unfold SF64add, SFadd.
  destruct x as [sx|sx| |sx mx ex], y as [sy|sy| |sy my ey]; simpl;
    intros Hx Hy; subst; simpl; trivial.
  apply binary_round_sign.
Qed.

End SignFacts.

(** ** The loop of [ring_area] and the pairs of the specification *)

Section Shoelace.

Import Core.
Open Scope float_scope.

Lemma fold_left_add_map (A : Type) (f : A -> float) (l : list A) (a : float) :
  fold_left (fun acc i => acc + f i) l a = fold_left (fun acc t => acc + t) (map f l) a.
Proof.
  revert a; induction l as [|i l IH]; intros a; simpl; [reflexivity | apply IH].
Qed.

Lemma nth_wrap (r : ring) (i : nat) (d : vertex) :
  (i < length r)%nat ->
  nth ((i + 1) mod length r) r d = nth i (tl r ++ firstn 1 r) d.
Proof.
  intros Hi.
  destruct r as [|v r]; [simpl in Hi; lia|].
  simpl length in *. simpl tl. simpl firstn.
  destruct (Nat.eq_dec i (length r)) as [->|Hne].
  - replace (length r + 1)%nat with (S (length r)) by lia.
    rewrite Nat.Div0.mod_same.
    rewrite app_nth2 by lia. rewrite Nat.sub_diag. reflexivity.
  - rewrite Nat.mod_small by lia.
    rewrite app_nth1 by lia.
    replace (i + 1)%nat with (S i) by lia. reflexivity.
Qed.

Lemma length_consecutive_pairs (r : ring) :
  length (Spec.consecutive_pairs r) = length r.
Proof.
  unfold Spec.consecutive_pairs. rewrite length_combine, length_app.
  destruct r as [|v r]; [reflexivity|].
  cbn [tl firstn length]. lia.
Qed.

Lemma terms_are_crosses (r : ring) :
  map (shoelace_term r) (seq 0 (length r)) = map Spec.cross (Spec.consecutive_pairs r).
Proof.
  apply nth_ext with (d := 0) (d' := 0).
  - now rewrite !length_map, length_seq, length_consecutive_pairs.
  - intros i Hi. rewrite length_map, length_seq in Hi.
    rewrite nth_indep with (d' := shoelace_term r 0%nat)
      by (rewrite length_map, length_seq; exact Hi).
    rewrite map_nth, seq_nth by exact Hi. simpl Nat.add.
    rewrite nth_indep with (d' := Spec.cross ((0, 0), (0, 0)))
      by (rewrite length_map, length_consecutive_pairs; exact Hi).
    rewrite map_nth. unfold Spec.consecutive_pairs.
    rewrite combine_nth
      by (rewrite length_app; destruct r; cbn [tl firstn length];
          [reflexivity | now rewrite Nat.add_1_r]).
    unfold shoelace_term, Spec.cross.
    rewrite nth_wrap by exact Hi.
    unfold ring, vertex in *.
    destruct (nth i r (0, 0)) as [x1 y1].
    destruct (nth i (tl r ++ firstn 1 r) (0, 0)) as [x2 y2].
    reflexivity.
Qed.

Lemma ring_area_shoelace (v : vertex) (r : ring) :
  ring_area (v :: r) = abs (Spec.shoelace_sum (v :: r)) / 2.
Proof.
  unfold ring_area, Spec.shoelace_sum.
  rewrite fold_left_add_map, terms_are_crosses, <- fold_left_add_map.
  reflexivity.
Qed.

End Shoelace.

(** ** Comparisons and special values *)

Section Comparisons.

Open Scope float_scope.

Lemma Prim2SF_zero : Prim2SF 0 = S754_zero false.
Proof. reflexivity. Qed.

Lemma Prim2SF_two : Prim2SF 2 = S754_finite false 4503599627370496 (-51).
Proof. reflexivity. Qed.

Lemma Prim2SF_hundred : Prim2SF 100 = S754_finite false 7036874417766400 (-46).
Proof. reflexivity. Qed.

Lemma SFcompare_refl (x : spec_float) :
  SFcompare x x = match x with S754_nan => None | _ => Some Eq end.
Proof.
  destruct x as [s|s| |s m e]; simpl; trivial.
  - now destruct s.
  - rewrite Z.compare_refl, Pos.compare_cont_refl. now destruct s.
Qed.

Lemma is_nan_spec (x : float) :
  is_nan x = match Prim2SF x with S754_nan => true | _ => false end.
Proof.
  unfold is_nan. rewrite FloatAxioms.eqb_spec. unfold SFeqb. rewrite SFcompare_refl.
  now destruct (Prim2SF x).
Qed.

Lemma leb_false_eqb_false (x y : float) :
  (x <=? y) = false -> (x =? y) = false.
Proof.
  rewrite FloatAxioms.leb_spec, FloatAxioms.eqb_spec. unfold SFleb, SFeqb.
  now destruct (SFcompare (Prim2SF x) (Prim2SF y)) as [[]|].
Qed.

Lemma sub_zero (x : float) : x - 0 = x.
Proof.
  apply Prim2SF_inj. rewrite sub_spec, Prim2SF_zero.
  now destruct (Prim2SF x) as [[]|[]| |s m e].
Qed.

(** A value that is not NaN and has its sign bit clear is at least zero. *)
Lemma unsigned_nonneg (x : float) :
  nan_or_sign false (Prim2SF x) -> is_nan x = false -> (0 <=? x) = true.
Proof.
  rewrite is_nan_spec, FloatAxioms.leb_spec, Prim2SF_zero.
  destruct (Prim2SF x) as [s|s| |s m e]; simpl; intros Hs Hn;
    subst; try discriminate; reflexivity.
Qed.


End Comparisons.

(** ** Signs of the areas *)

Section AreaSigns.

Import Core.
Open Scope float_scope.

Lemma ring_area_sign (r : ring) : nan_or_sign false (Prim2SF (ring_area r)).
Proof.
  destruct r as [|v r]; [exact eq_refl|].
  unfold ring_area. rewrite div_spec, abs_spec, Prim2SF_two.
  apply SFdiv_sign; [apply SFabs_sign | reflexivity].
Qed.

Lemma py_sum_from_sign (l : list float) (a : float) :
  nan_or_sign false (Prim2SF a) ->
  Forall (fun x => nan_or_sign false (Prim2SF x)) l ->
  nan_or_sign false (Prim2SF (fold_left (fun acc x => acc + x) l a)).
Proof.
  intros Ha Hl; revert a Ha.
  induction Hl as [|x l Hx _ IH]; intros a Ha; simpl; [exact Ha|].
  apply IH. rewrite add_spec. now apply SFadd_sign.
Qed.

Lemma hole_area_sign (holes : list ring) :
  nan_or_sign false (Prim2SF (py_sum (map ring_area holes))).
Proof.
  apply py_sum_from_sign; [exact eq_refl|].
  apply Forall_forall. intros x Hx. apply in_map_iff in Hx.
  destruct Hx as [r [<- _]]. apply ring_area_sign.
Qed.

End AreaSigns.

(** ** The core claims *)

Section CoreClaims.

Import Core.
Open Scope float_scope.

Lemma polygon_metrics_cons (outer : ring) (holes : list ring) :
  polygon_metrics (outer :: holes) =
  Returns (Spec.polygon_area (outer :: holes), Spec.hole_area (outer :: holes),
           Spec.hole_percent (outer :: holes)).
Proof.
  unfold polygon_metrics, Spec.hole_percent, Spec.polygon_area, Spec.outer_area,
    Spec.hole_area.
  cbn [nth skipn].
  destruct (ring_area outer - py_sum (map ring_area holes) <=? 0) eqn:Hle;
    [reflexivity|].
  unfold py_truediv. rewrite (leb_false_eqb_false _ _ Hle). reflexivity.
Qed.

Lemma add_holes_fold (holes : list ring) (total : float) :
  Spec.add_holes total holes
  = fold_left (fun acc x => acc + x) (map ring_area holes) total.
Proof.
  revert total; induction holes as [|hole rest IH]; intros total; [reflexivity|].
  cbn [Spec.add_holes map fold_left]. apply IH.
Qed.

Lemma add_all_fold (l : list float) (total : float) :
  Spec.add_all total l = fold_left (fun acc x => acc + x) l total.
Proof.
  revert total; induction l as [|x rest IH]; intros total; [reflexivity|].
  cbn [Spec.add_all fold_left]. apply IH.
Qed.

Lemma compensated_step_lost (f_result c x : float) :
  compensated_step (f_result, c) x = (f_result + x, c + Spec.lost f_result x).
Proof.
  unfold compensated_step, Spec.lost. now destruct (abs x <=? abs f_result).
Qed.

Lemma compensated_fold (holes : list ring) (f_result c : float) :
  fold_left compensated_step (map ring_area holes) (f_result, c)
  = (Spec.add_holes f_result holes, Spec.add_all c (Spec.losses f_result holes)).
Proof.
  revert f_result c; induction holes as [|hole rest IH]; intros f_result c;
    [reflexivity|].
  cbn [map fold_left Spec.add_holes Spec.losses Spec.add_all].
  rewrite compensated_step_lost. apply IH.
Qed.

Lemma py_sum_under_holes (s : summation) (outer : ring) (holes : list ring) :
  py_sum_under s (map ring_area holes) = Spec.hole_area_under s (outer :: holes).
Proof.
  destruct s; cbn [py_sum_under Spec.hole_area_under tl].
  - unfold py_sum. now rewrite add_holes_fold.
  - destruct holes as [|first rest]; [reflexivity|].
    cbn [map py_sum_compensated]. rewrite compensated_fold.
    now rewrite andb_comm.
Qed.


(** C3, as amended: [ring_area] returns exactly [0.0] on the ring without
    vertices, and otherwise the absolute value, halved, of the sum over the
    consecutive vertex pairs, the wrap-around pair included, of
    [x_i * y_{i+1} - x_{i+1} * y_i]; the square of the specification has
    area [16.0] in either winding order; and the result is NaN or at least
    zero. *)
Theorem ring_area_shoelace_formula (r : ring) :
  ring_area r = match r with
                | [] => 0
                | _ :: _ => abs (Spec.shoelace_sum r) / 2
                end
  /\ ring_area Examples.square_ccw = 16
  /\ ring_area Examples.square_cw = 16
  /\ (is_nan (ring_area r) = true \/ (0 <=? ring_area r) = true).
Proof.
  split; [|split; [|split]].
  - destruct r as [|v r]; [reflexivity | apply ring_area_shoelace].
  - reflexivity.
  - reflexivity.
  - destruct (is_nan (ring_area r)) eqn:Hn; [now left | right].
    apply unsigned_nonneg; [apply ring_area_sign | exact Hn].
Qed.

(** C3 fails as stated: the area of [far_point] is NaN, which is not
    non-negative. *)
Lemma ring_area_far_point_not_nonneg :
  ring_area Examples.far_point = nan
  /\ (0 <=? ring_area Examples.far_point) = false.
Proof. split; reflexivity. Qed.

(** C6, as amended: for a single ring whose area is not NaN,
    [polygon_metrics([outer])] returns [(ring_area(outer), 0.0, 0.0)], an
    area of zero included. *)
Theorem polygon_metrics_single_ring (outer : ring) :
  is_nan (ring_area outer) = false ->
  polygon_metrics [outer] = Returns (ring_area outer, 0, 0).
Proof.
  intros Hn. rewrite polygon_metrics_cons.
  unfold Spec.hole_percent, Spec.polygon_area, Spec.outer_area, Spec.hole_area.
  cbn [nth skipn map py_sum fold_left].
  rewrite sub_zero.
  destruct (ring_area outer <=? 0) eqn:Hle; [reflexivity|].
  do 3 f_equal.
  apply Prim2SF_inj. rewrite mul_spec, div_spec, Prim2SF_hundred, Prim2SF_zero.
  pose proof (ring_area_sign outer) as Hs.
  rewrite is_nan_spec in Hn.
  rewrite FloatAxioms.leb_spec, Prim2SF_zero in Hle.
  destruct (Prim2SF (ring_area outer)) as [s|s| |s m e]; simpl in Hs; subst;
    try discriminate; reflexivity.
Qed.

Lemma polygon_metrics_single_ring_witness :
  is_nan (ring_area Examples.square_ccw) = false
  /\ polygon_metrics [Examples.square_ccw] = Returns (16, 0, 0).
Proof.
  split; [reflexivity|].
  exact (polygon_metrics_single_ring Examples.square_ccw eq_refl).
Defined.

(** C6 fails as stated: the single ring [far_point] has area NaN, and the
    percentage returned with it is NaN, not [0.0]. *)
Lemma polygon_metrics_far_point :
  polygon_metrics [Examples.far_point] = Returns (nan, 0, nan)
  /\ polygon_metrics [Examples.far_point]
     <> Returns (ring_area Examples.far_point, 0, 0).
Proof.
  split; [reflexivity|].
  intros H. apply (f_equal (fun r => match r with
                                     | Returns (_, _, pct) => is_nan pct
                                     | Raises => false
                                     end)) in H.
  vm_compute in H. discriminate.
Qed.

End CoreClaims.

(** ** Negation and the order of additions *)

Section Symmetry.

Lemma same_value_refl (x : spec_float) : same_value x x.
Proof. now left. Qed.

Lemma same_value_sym (x y : spec_float) : same_value x y -> same_value y x.
Proof. intros [->|[Hx Hy]]; [now left | now right]. Qed.

Lemma same_value_trans (x y z : spec_float) :
  same_value x y -> same_value y z -> same_value x z.
Proof.
  intros [->|[Hx Hy]] [->|[Hy' Hz]]; try (now left); try (now right).
Qed.

Lemma same_value_zero (x y : spec_float) :
  same_value x y -> is_zero_sf y = true -> is_zero_sf x = true.
Proof. intros [->|[Hx _]] Hy; assumption. Qed.

Lemma SFabs_same (x y : spec_float) : same_value x y -> SFabs x = SFabs y.
Proof.
  intros [->|[Hx Hy]]; [reflexivity|].
  destruct x, y; try discriminate; reflexivity.
Qed.

Lemma SFabs_opp (x : spec_float) : SFabs (SFopp x) = SFabs x.
Proof. now destruct x. Qed.

Lemma SFopp_same (x y : spec_float) :
  same_value x y -> same_value (SFopp x) (SFopp y).
Proof.
  intros [->|[Hx Hy]]; [now left | right].
  destruct x, y; try discriminate; now split.
Qed.

Lemma binary_round_aux_opp (s : bool) (m e : Z) (l : location) :
  binary_round_aux prec emax (negb s) m e l
  = SFopp (binary_round_aux prec emax s m e l).
Proof.
  unfold binary_round_aux.
  destruct (shr_fexp prec emax m e l) as [mrs' e'].
  destruct (shr_fexp prec emax _ e' loc_Exact) as [mrs'' e''].
  destruct (shr_m mrs''); simpl; trivial.
  now destruct (Z.leb e'' _).
Qed.

Lemma binary_round_opp (s : bool) (m : positive) (e : Z) :
  binary_round prec emax (negb s) m e = SFopp (binary_round prec emax s m e).
Proof.
  unfold binary_round.
  destruct (shl_align m e _) as [mz ez].
  apply binary_round_aux_opp.
Qed.

Lemma binary_normalize_opp (z e : Z) :
  same_value (binary_normalize prec emax (- z) e false)
             (SFopp (binary_normalize prec emax z e false)).
Proof.
  destruct z as [|m|m]; simpl.
  - now right.
  - left. exact (binary_round_opp false m e).
  - left. exact (binary_round_opp true m e).
Qed.

Lemma SFadd_comm (x y : spec_float) : SF64add x y = SF64add y x.
Proof.
  unfold SF64add, SFadd.
  destruct x as [sx|sx| |sx mx ex], y as [sy|sy| |sy my ey];
    try reflexivity; try (now destruct sx, sy).
  rewrite (Z.min_comm ey ex). now rewrite Z.add_comm.
Qed.

Lemma cond_Zopp_negb (s : bool) (z : Z) : cond_Zopp (negb s) z = (- cond_Zopp s z)%Z.
Proof. destruct s; simpl; lia. Qed.

Lemma SFadd_opp (x y : spec_float) :
  same_value (SF64add (SFopp x) (SFopp y)) (SFopp (SF64add x y)).
Proof.
  unfold SF64add, SFadd.
  destruct x as [sx|sx| |sx mx ex], y as [sy|sy| |sy my ey];
    try (now left); try (destruct sx, sy; simpl; (now left) || (now right)).
  cbn [SFopp]. rewrite !cond_Zopp_negb, <- Z.opp_add_distr.
  apply binary_normalize_opp.
Qed.

Lemma SFsub_swap (x y : spec_float) :
  same_value (SF64sub y x) (SFopp (SF64sub x y)).
Proof.
  unfold SF64sub, SFsub.
  destruct x as [sx|sx| |sx mx ex], y as [sy|sy| |sy my ey];
    try (now left); try (destruct sx, sy; simpl; (now left) || (now right)).
  rewrite (Z.min_comm ey ex).
  match goal with
  | |- same_value (binary_normalize _ _ (?a - ?b) _ _) _ =>
      replace (a - b)%Z with (- (b - a))%Z by lia
  end.
  apply binary_normalize_opp.
Qed.

Lemma SFadd_zero_l (x : spec_float) : same_value (SF64add (S754_zero false) x) x.
Proof. destruct x as [[]|[]| |s m e]; simpl; (now left) || (now right). Qed.

Lemma SFadd_same (x x' y y' : spec_float) :
  same_value x x' -> same_value y y' ->
  same_value (SF64add x y) (SF64add x' y').
Proof.
  intros [->|[Hx Hx']] [->|[Hy Hy']]; [now left | | |].
  - destruct y as [sy| | |], y' as [sy'| | |]; try discriminate.
    destruct x' as [[]|[]| |s m e], sy, sy'; simpl; (now left) || (now right).
  - destruct x as [sx| | |], x' as [sx'| | |]; try discriminate.
    destruct y' as [[]|[]| |s m e], sx, sx'; simpl; (now left) || (now right).
  - destruct x as [sx| | |], x' as [sx'| | |], y as [sy| | |], y' as [sy'| | |];
      try discriminate.
    destruct sx, sx', sy, sy'; simpl; (now left) || (now right).
Qed.

(** A finite value and its opposite add up to a zero. *)
Lemma SFadd_opp_diag (x : spec_float) :
  match x with S754_zero _ | S754_finite _ _ _ => True | _ => False end ->
  is_zero_sf (SF64add x (SFopp x)) = true.
Proof.
  destruct x as [[]| | |s m e]; simpl; try tauto; intros _.
  rewrite Z.min_id. unfold shl_align. rewrite Z.sub_diag. cbn [fst].
  rewrite cond_Zopp_negb, Z.add_opp_diag_r. reflexivity.
Qed.

(** A value minus itself is a zero, or NaN. *)
Lemma SFsub_diag (x : spec_float) :
  match SF64sub x x with
  | S754_zero s => s = false
  | S754_nan => True
  | _ => False
  end.
Proof.
  destruct x as [[]|[]| |s m e]; simpl; trivial.
  rewrite Z.sub_diag. reflexivity.
Qed.

End Symmetry.

(** ** Rings of up to three vertices *)

Section SmallRings.

Import Core.
Open Scope float_scope.

Lemma Prim2SF_infinity : Prim2SF infinity = S754_infinity false.
Proof. reflexivity. Qed.

Lemma is_finite_spec (x : float) :
  is_finite x = match Prim2SF x with
                | S754_zero _ | S754_finite _ _ _ => true
                | _ => false
                end.
Proof.
  unfold is_finite, is_infinity.
  rewrite is_nan_spec, FloatAxioms.eqb_spec, abs_spec, Prim2SF_infinity.
  now destruct (Prim2SF x) as [s|s| |s m e].
Qed.

Lemma half_abs_same (a b : float) :
  same_value (Prim2SF a) (Prim2SF b) -> abs a / 2 = abs b / 2.
Proof.
  intros H. apply Prim2SF_inj. rewrite !div_spec, !abs_spec.
  now rewrite (SFabs_same _ _ H).
Qed.

Lemma half_abs_opp (a b : float) :
  same_value (Prim2SF a) (SFopp (Prim2SF b)) -> abs a / 2 = abs b / 2.
Proof.
  intros H. apply Prim2SF_inj. rewrite !div_spec, !abs_spec.
  now rewrite (SFabs_same _ _ H), SFabs_opp.
Qed.

Lemma half_abs_zero (a : float) :
  is_zero_sf (Prim2SF a) = true -> abs a / 2 = 0.
Proof.
  intros H. apply Prim2SF_inj. rewrite div_spec, abs_spec, Prim2SF_two.
  now destruct (Prim2SF a) as [s|s| |s m e].
Qed.

Lemma ring_area_one (x y : float) :
  ring_area [(x, y)] = abs (0 + (x * y - x * y)) / 2.
Proof. reflexivity. Qed.

Lemma ring_area_two (x0 y0 x1 y1 : float) :
  ring_area [(x0, y0); (x1, y1)]
  = abs (0 + (x0 * y1 - x1 * y0) + (x1 * y0 - x0 * y1)) / 2.
Proof. reflexivity. Qed.

Lemma ring_area_three (x0 y0 x1 y1 x2 y2 : float) :
  ring_area [(x0, y0); (x1, y1); (x2, y2)]
  = abs (0 + (x0 * y1 - x1 * y0) + (x1 * y2 - x2 * y1) + (x2 * y0 - x0 * y2)) / 2.
Proof. reflexivity. Qed.

(** C9, as amended: a ring of one or two vertices in which every summand of
    the loop is finite has area exactly [0.0]. *)
Theorem ring_area_degenerate (r : ring) :
  (length r = 1 \/ length r = 2)%nat ->
  terms_finite r = true ->
  ring_area r = 0.
Proof.
  intros Hlen Hfin.
  destruct r as [|[x0 y0] [|[x1 y1] [|v r]]]; simpl in Hlen; try lia.
  - rewrite ring_area_one. apply half_abs_zero.
    unfold terms_finite in Hfin. cbn in Hfin.
    rewrite andb_true_r, is_finite_spec in Hfin.
    rewrite add_spec, Prim2SF_zero.
    rewrite sub_spec in *.
    pose proof (SFsub_diag (Prim2SF (x0 * y0))) as Hd.
    destruct (SF64sub (Prim2SF (x0 * y0)) (Prim2SF (x0 * y0))) as [s| | |];
      try discriminate; try contradiction.
    now subst s.
  - rewrite ring_area_two. apply half_abs_zero.
    unfold terms_finite in Hfin. cbn in Hfin.
    apply andb_true_iff in Hfin. destruct Hfin as [Hf0 _].
    rewrite is_finite_spec in Hf0.
    rewrite !add_spec, Prim2SF_zero.
    set (t0 := Prim2SF (x0 * y1 - x1 * y0)) in *.
    apply same_value_zero with (y := SF64add t0 (SFopp t0)).
    + apply SFadd_same; [apply SFadd_zero_l|].
      unfold t0. rewrite !sub_spec. apply SFsub_swap.
    + apply SFadd_opp_diag. now destruct t0.
Qed.

Lemma ring_area_degenerate_witness :
  (length [(1, 2); (3, 4)] = 1 \/ length [(1, 2); (3, 4)] = 2)%nat
  /\ terms_finite [(1, 2); (3, 4)] = true
  /\ ring_area [(1, 2); (3, 4)] = 0.
Proof.
  split; [right; reflexivity|]. split; [reflexivity|].
  apply ring_area_degenerate; [right; reflexivity | reflexivity].
Defined.

(** C9 fails as stated: the one-vertex ring [far_point] and the two-vertex
    ring [far_segment] have finite coordinates and area NaN. *)
Lemma ring_area_far_not_zero :
  ring_area Examples.far_point = nan
  /\ ring_area Examples.far_segment = nan
  /\ ring_area Examples.far_point <> 0
  /\ ring_area Examples.far_segment <> 0.
Proof.
  repeat split; try reflexivity;
    intros H; apply (f_equal is_nan) in H; vm_compute in H; discriminate.
Qed.

(** C5, as amended: for a ring of at most three vertices, [ring_area] of the
    reversed ring is the same binary64 value as [ring_area] of the ring. *)
Theorem ring_area_rev (r : ring) :
  (length r <= 3)%nat -> ring_area (rev r) = ring_area r.
Proof.
  intros Hlen.
  destruct r as [|[x0 y0] [|[x1 y1] [|[x2 y2] [|v r]]]]; simpl in Hlen; try lia;
    try reflexivity.
  - cbn [rev app]. rewrite !ring_area_two. apply half_abs_same.
    rewrite !add_spec, Prim2SF_zero.
    set (t0 := Prim2SF (x0 * y1 - x1 * y0)).
    set (t1 := Prim2SF (x1 * y0 - x0 * y1)).
    apply same_value_trans with (y := SF64add t1 t0).
    + apply SFadd_same; [apply SFadd_zero_l | apply same_value_refl].
    + rewrite SFadd_comm.
      apply SFadd_same; [|apply same_value_refl].
      apply same_value_sym, SFadd_zero_l.
  - cbn [rev app]. rewrite !ring_area_three. apply half_abs_opp.
    rewrite !add_spec, Prim2SF_zero.
    set (t0 := Prim2SF (x0 * y1 - x1 * y0)).
    set (t1 := Prim2SF (x1 * y2 - x2 * y1)).
    set (t2 := Prim2SF (x2 * y0 - x0 * y2)).
    assert (H0 : same_value (Prim2SF (x2 * y1 - x1 * y2)) (SFopp t1))
      by (unfold t1; rewrite !sub_spec; apply SFsub_swap).
    assert (H1 : same_value (Prim2SF (x1 * y0 - x0 * y1)) (SFopp t0))
      by (unfold t0; rewrite !sub_spec; apply SFsub_swap).
    assert (H2 : same_value (Prim2SF (x0 * y2 - x2 * y0)) (SFopp t2))
      by (unfold t2; rewrite !sub_spec; apply SFsub_swap).
    apply same_value_trans
      with (y := SF64add (SF64add (SFopp t1) (SFopp t0)) (SFopp t2)).
    { apply SFadd_same; [|exact H2].
      apply SFadd_same; [|exact H1].
      apply same_value_trans with (y := Prim2SF (x2 * y1 - x1 * y2));
        [apply SFadd_zero_l | exact H0]. }
    apply same_value_trans with (y := SF64add (SFopp (SF64add t1 t0)) (SFopp t2)).
    { apply SFadd_same; [apply SFadd_opp | apply same_value_refl]. }
    apply same_value_trans with (y := SFopp (SF64add (SF64add t1 t0) t2)).
    { apply SFadd_opp. }
    apply SFopp_same. rewrite (SFadd_comm t1 t0).
    apply SFadd_same; [|apply same_value_refl].
    apply SFadd_same; [|apply same_value_refl].
    apply same_value_sym, SFadd_zero_l.
Qed.

Lemma ring_area_rev_witness :
  (length Examples.triangle <= 3)%nat
  /\ ring_area (rev Examples.triangle) = ring_area Examples.triangle.
Proof.
  split; [simpl; lia|].
  apply ring_area_rev. simpl; lia.
Defined.

(** C5 fails as stated: [long_quad] and its reversal have areas that differ
    in the last bit. *)
Lemma ring_area_rev_long_quad :
  ring_area Examples.long_quad = 4503599627370496
  /\ ring_area (rev Examples.long_quad) = 4503599627370497
  /\ ring_area (rev Examples.long_quad) <> ring_area Examples.long_quad.
Proof.
  repeat split; try reflexivity.
  intros H.
  apply (f_equal (fun x => x =? 4503599627370496)) in H.
  vm_compute in H. discriminate.
Qed.

End SmallRings.

(** ** The traversal *)

Section Traversal.

Open Scope Z_scope.

Variable s : summation.

Ltac run_trivial :=
  split; [split|];
  unfold counts_from, yields_for, run_items, run_ending;
  cbn [fst snd map length app count_from seq];
  intros; try reflexivity; try lia; try discriminate.

Lemma count_from_succ (index : Z) (n : nat) :
  count_from index (S n) = (index + 1) :: count_from (index + 1) n.
Proof.
  unfold count_from. cbn [seq map]. f_equal.
  rewrite <- seq_shift, map_map. apply map_ext. intros k. lia.
Qed.

Lemma count_from_app (index : Z) (n m : nat) :
  count_from index (n + m) = count_from index n ++ count_from (index + Z.of_nat n) m.
Proof.
  revert index; induction n as [|n IH]; intros index.
  - cbn [Nat.add count_from seq map app]. now rewrite Z.add_0_r.
  - cbn [Nat.add]. rewrite !count_from_succ, IH. cbn [app]. do 3 f_equal. lia.
Qed.

Lemma item_index_yield (index : Z) (m : float * number * float) :
  item_index (yield index m) = index.
Proof. now destruct m as [[a h] p]. Qed.

Lemma item_metrics_yield (index : Z) (m : float * number * float) :
  item_metrics (yield index m) = m.
Proof. now destruct m as [[a h] p]. Qed.

Lemma each_polygon_counts (polys : list json) (index : Z) :
  counts_from index (each_polygon s index polys)
  /\ yields_for s polys (each_polygon s index polys).
Proof.
  revert index; induction polys as [|poly rest IH]; intros index; cbn [each_polygon].
  - run_trivial.
  - destruct (polygon_metrics_of s poly) as [m|] eqn:Hm.
    + destruct (IH (index + 1)) as [[Hidx Hend] Hy].
      destruct (each_polygon s (index + 1) rest) as [[index' items] e].
      unfold counts_from, yields_for, run_items, run_ending in *.
      cbn [fst snd map length app] in *.
      split; [split|].
      * rewrite count_from_succ, item_index_yield. now f_equal.
      * intros He. rewrite (Hend He). lia.
      * intros He. rewrite item_metrics_yield, Hm. f_equal. now apply Hy.
    + run_trivial.
Qed.

Lemma get_member (members : list (string * json)) (key : string) (default : json) :
  Py.get (JObj members) key default = Returns (Spec.member (JObj members) key default).
Proof. reflexivity. Qed.

Lemma feature_counts (feat : json) (index : Z) :
  counts_from index (feature s index feat)
  /\ yields_for s (Spec.polygons_of_feature feat) (feature s index feat).
Proof.
  assert (Hraised : forall polys, counts_from index (index, [], Raised)
                                  /\ yields_for s polys (index, [], Raised))
    by (intros polys; run_trivial).
  unfold feature, Spec.polygons_of_feature.
  destruct feat as [| | | | | |members]; try exact (Hraised _).
  rewrite get_member. cbn [bind].
  destruct (Spec.member (JObj members) "geometry" (JObj [])) as [| | | | | |geom];
    try exact (Hraised _).
  rewrite !get_member. cbn [bind].
  set (gtype := Spec.member (JObj geom) "type" JNull).
  set (coords := Spec.member (JObj geom) "coordinates" (JArr [])).
  destruct (Py.eq_str gtype "Polygon").
  - destruct (polygon_metrics_of s coords) as [m|] eqn:Hm.
    + split; [split|]; unfold counts_from, yields_for, run_items, run_ending;
        cbn [fst snd map length app count_from seq].
      * now rewrite item_index_yield.
      * intros _. lia.
      * intros _. now rewrite item_metrics_yield, Hm.
    + run_trivial.
  - destruct (Py.eq_str gtype "MultiPolygon").
    + unfold Spec.elements. destruct (Py.iter coords) as [polys|].
      * apply each_polygon_counts.
      * run_trivial.
    + run_trivial.
Qed.

Lemma each_feature_counts (features : list json) (index : Z) :
  counts_from index (each_feature s index features)
  /\ yields_for s (flat_map Spec.polygons_of_feature features)
                (each_feature s index features).
Proof.
  revert index; induction features as [|feat rest IH]; intros index;
    cbn [each_feature flat_map].
  - run_trivial.
  - destruct (feature_counts feat index) as [[Hidx Hend] Hy].
    destruct (feature s index feat) as [[index1 items1] e1].
    unfold counts_from, yields_for, run_items, run_ending in *.
      cbn [fst snd map length app] in *.
    destruct e1.
    + specialize (Hend eq_refl). specialize (Hy eq_refl). subst index1.
      destruct (IH (index + Z.of_nat (length items1))) as [[Hidx2 Hend2] Hy2].
      destruct (each_feature s _ rest) as [[index2 items2] e2].
      cbn [fst snd map length app] in *.
      split; [split|].
      * rewrite map_app, length_app, count_from_app. now f_equal.
      * intros He. rewrite (Hend2 He), length_app. lia.
      * intros He. rewrite !map_app. f_equal; [exact Hy | now apply Hy2].
    + split; [split|]; try assumption; discriminate.
Qed.

Lemma process_document_features (data : json) (features : list json) :
  (t <- Py.get data "type" JNull ;;
   features <- (if Py.eq_str t "FeatureCollection"
                then Py.get data "features" (JArr [])
                else Returns (JArr [data])) ;;
   Py.iter features) = Returns features ->
  Spec.features data = features.
Proof.
  destruct data as [| | | | | |members]; try discriminate.
  rewrite get_member. cbn [bind]. unfold Spec.features.
  destruct (Py.eq_str _ "FeatureCollection").
  - rewrite get_member. cbn [bind]. unfold Spec.elements.
    now intros ->.
  - cbn. now intros [= <-].
Qed.

Lemma process_document_counts (data : json) :
  map item_index (fst (process_document s data))
  = Spec.indices (length (fst (process_document s data)))
  /\ (snd (process_document s data) = Exhausted ->
      map (fun it => Returns (item_metrics it)) (fst (process_document s data))
      = map (polygon_metrics_of s) (Spec.polygons data)).
Proof.
  unfold process_document.
  destruct (t <- Py.get data "type" JNull ;; _) as [features|] eqn:Hf.
  - apply process_document_features in Hf.
    destruct (each_feature_counts features 0) as [[Hidx _] Hy].
    unfold Spec.polygons. rewrite Hf.
    destruct (each_feature s 0 features) as [[index items] e].
    unfold counts_from, yields_for, run_items, run_ending in *.
      cbn [fst snd map length app] in *.
    split; [|exact Hy].
    rewrite Hidx. unfold count_from, Spec.indices. apply map_ext. intros k. lia.
  - cbn. split; [reflexivity | discriminate].
Qed.

Lemma process_collection (features : list json) :
  process_document s (Spec.feature_collection features)
  = (run_items (each_feature s 0 features), run_ending (each_feature s 0 features)).
Proof.
  unfold process_document, Spec.feature_collection.
  cbn [Py.get Py.dict_get fold_left fst snd String.eqb Ascii.eqb Bool.eqb bind
       Py.eq_str Py.iter].
  now destruct (each_feature s 0 features) as [[i items] e].
Qed.

End Traversal.

(** ** The traversal claims *)

Section TraversalClaims.

Import Core.

Variable s : summation.

Lemma polygon_metrics_metrics (rings : list ring) :
  polygon_metrics rings = Returns (Spec.metrics rings).
Proof.
  destruct rings as [|outer holes]; [reflexivity | apply polygon_metrics_cons].
Qed.

Lemma all_returns {A B : Type} (f : A -> result B) (g : B -> A) (l : list B) :
  (forall b, f (g b) = Returns b) -> Py.all f (map g l) = Returns l.
Proof.
  intros Hfg. induction l as [|b l IH]; [reflexivity|].
  cbn [map Py.all]. rewrite Hfg, IH. reflexivity.
Qed.

Lemma all_map_returns {A B C : Type} (f : A -> result B) (g : C -> A) (h : C -> B)
      (l : list C) :
  (forall c, f (g c) = Returns (h c)) -> Py.all f (map g l) = Returns (map h l).
Proof.
  intros Hfg. induction l as [|c l IH]; [reflexivity|].
  cbn [map Py.all]. rewrite Hfg, IH. reflexivity.
Qed.

Lemma number_of_json (a : number) : Py.number_of (Spec.json_of_number a) = Returns a.
Proof. now destruct a. Qed.

Lemma position_of_json (p : number * number) :
  Py.vertex_of (Spec.json_of_position p) = Returns p.
Proof.
  destruct p as [a b]. unfold Spec.json_of_position, Py.vertex_of. cbn [fst snd].
  now rewrite !number_of_json.
Qed.

Lemma ring_of_positions (r : list (number * number)) :
  Py.ring_of (JArr (map Spec.json_of_position r)) = Returns r.
Proof.
  unfold Py.ring_of.
  destruct r as [|p r]; [reflexivity|].
  cbn [map Py.truthy]. apply (all_returns _ _ (p :: r)), position_of_json.
Qed.

Lemma rings_of_polygon (rings : list (list (number * number))) :
  Py.rings_of (Spec.json_of_polygon rings) = Returns rings.
Proof.
  unfold Py.rings_of, Spec.json_of_polygon.
  destruct rings as [|r rings]; [reflexivity|].
  cbn [map Py.truthy].
  apply (all_returns _ (fun r => JArr (map Spec.json_of_position r)) (r :: rings)),
    ring_of_positions.
Qed.

Lemma json_of_rings_floats (rings : list ring) :
  Spec.json_of_rings rings = Spec.json_of_polygon (map Spec.floats rings).
Proof.
  unfold Spec.json_of_rings, Spec.json_of_polygon, Spec.json_of_ring, Spec.floats.
  rewrite map_map. f_equal. apply map_ext. intros r. now rewrite map_map.
Qed.

Lemma rings_of_json (rings : list ring) :
  Py.rings_of (Spec.json_of_rings rings) = Returns (map Spec.floats rings).
Proof. rewrite json_of_rings_floats. apply rings_of_polygon. Qed.

(** On floats, the functions on numbers are those of the core. *)
Lemma shoelace_term_floats (r : ring) (i : nat) :
  Py.shoelace_term (Spec.floats r) i = Returns (Float (shoelace_term r i)).
Proof.
  assert (Hnth : forall j, nth j (Spec.floats r) (Float 0%float, Float 0%float)
                           = (Float (fst (nth j r (0, 0)%float)),
                              Float (snd (nth j r (0, 0)%float))))
    by (intros j; exact (map_nth (fun v => (Float (fst v), Float (snd v))) r
                                 (0, 0)%float j)).
  unfold Py.shoelace_term, shoelace_term. rewrite !Hnth.
  unfold Spec.floats. rewrite length_map. unfold ring, vertex in *.
  destruct (nth i r (0, 0)%float) as [x1 y1].
  destruct (nth ((i + 1) mod length r) r (0, 0)%float) as [x2 y2].
  reflexivity.
Qed.

Lemma fold_terms_floats (r : ring) (l : list nat) (acc : float) :
  fold_left (fun area i =>
               acc <- area ;; t <- Py.shoelace_term (Spec.floats r) i ;; Py.add_to acc t)
            l (Returns acc)
  = Returns (fold_left (fun area i => (area + shoelace_term r i)%float) l acc).
Proof.
  revert acc; induction l as [|i l IH]; intros acc; [reflexivity|].
  cbn [fold_left bind]. rewrite shoelace_term_floats. cbn [bind Py.add_to as_float].
  apply IH.
Qed.

Lemma ring_area_floats (r : ring) :
  Py.ring_area (Spec.floats r) = Returns (ring_area r).
Proof.
  destruct r as [|v r]; [reflexivity|].
  change (Py.ring_area (Spec.floats (v :: r)))
    with (area <- fold_left
                    (fun area i =>
                       acc <- area ;;
                       t <- Py.shoelace_term (Spec.floats (v :: r)) i ;;
                       Py.add_to acc t)
                    (seq 0 (length (Spec.floats (v :: r)))) (Returns 0%float) ;;
          Returns (abs area / 2)%float).
  rewrite fold_terms_floats. cbn [bind].
  unfold Spec.floats. now rewrite length_map.
Qed.

Lemma polygon_metrics_floats (rings : list ring) :
  Py.polygon_metrics s (map Spec.floats rings) = Returns (Spec.values s rings).
Proof.
  destruct rings as [|outer holes]; [reflexivity|].
  cbn [map Py.polygon_metrics]. rewrite ring_area_floats. cbn [bind].
  rewrite (all_map_returns Py.ring_area Spec.floats ring_area holes ring_area_floats).
  cbn [bind].
  assert (Hs : as_float (Py.sum s (map ring_area holes))
               = Returns (Spec.hole_area_under s (outer :: holes))).
  { rewrite <- (py_sum_under_holes s outer holes).
    destruct holes; [now destruct s | reflexivity]. }
  rewrite Hs. cbn [bind].
  unfold Spec.values, Spec.metrics_under.
  destruct (ring_area outer - Spec.hole_area_under s (outer :: holes) <=? 0)%float
    eqn:Hle.
  - destruct holes; [reflexivity|].
    cbn [Py.sum map]. now rewrite <- (py_sum_under_holes s outer).
  - unfold py_truediv. rewrite (leb_false_eqb_false _ _ Hle). cbn [bind].
    destruct holes; [reflexivity|].
    cbn [Py.sum map]. now rewrite <- (py_sum_under_holes s outer).
Qed.

Lemma polygon_metrics_of_json (rings : list ring) :
  polygon_metrics_of s (Spec.json_of_rings rings) = Returns (Spec.values s rings).
Proof.
  unfold polygon_metrics_of. rewrite rings_of_json. apply polygon_metrics_floats.
Qed.

Lemma feature_unsupported (index : Z) (feat : json) :
  Spec.unsupported feat = true -> feature s index feat = (index, [], Exhausted).
Proof.
  unfold Spec.unsupported, feature.
  destruct feat as [| | | | | |members]; try discriminate.
  cbn [Py.get bind].
  destruct (Py.dict_get members "geometry") as [geom|]; [|intros _; reflexivity].
  destruct geom as [| | | | | |geom]; try discriminate.
  cbn [Py.get bind].
  destruct (Py.dict_get geom "type") as [gtype|].
  - intros H. apply andb_true_iff in H. destruct H as [H1 H2].
    apply negb_true_iff in H1, H2. now rewrite H1, H2.
  - intros _. reflexivity.
Qed.

Lemma each_feature_skip (index : Z) (before after : list json) (feat : json) :
  Spec.unsupported feat = true ->
  each_feature s index (before ++ feat :: after) = each_feature s index (before ++ after).
Proof.
  intros Hu. revert index. induction before as [|f before IH]; intros index.
  - cbn [app each_feature]. rewrite (feature_unsupported _ _ Hu).
    now destruct (each_feature s index after) as [[i items] e].
  - cbn [app each_feature].
    destruct (feature s index f) as [[i items] [|]]; [|reflexivity].
    now rewrite IH.
Qed.

Lemma each_polygon_json (polys : list (list ring)) (index : Z) :
  run_ending (each_polygon s index (map Spec.json_of_rings polys)) = Exhausted.
Proof.
  revert index; induction polys as [|rings polys IH]; intros index;
    [reflexivity|].
  cbn [map each_polygon]. rewrite polygon_metrics_of_json.
  specialize (IH (index + 1)%Z).
  now destruct (each_polygon s (index + 1) (map Spec.json_of_rings polys))
    as [[i items] e].
Qed.

(** C10: a feature object without a geometry, or whose geometry object has
    no type or an unrecognized one, is skipped: it yields no item, leaves
    the counter as it was and raises nothing, and the features after it are
    processed as if it were not there. *)
Theorem unsupported_feature_skipped (feat : json) :
  Spec.unsupported feat = true ->
  (forall index : Z, feature s index feat = (index, [], Exhausted))
  /\ (forall (index : Z) (before after : list json),
         each_feature s index (before ++ feat :: after)
         = each_feature s index (before ++ after))
  /\ (forall before after : list json,
         process_document s (Spec.feature_collection (before ++ feat :: after))
         = process_document s (Spec.feature_collection (before ++ after))).
Proof.
  intros Hu. split; [|split].
  - intros index. now apply feature_unsupported.
  - intros index before after. now apply each_feature_skip.
  - intros before after.
    unfold process_document, Spec.feature_collection.
    cbn [Py.get Py.dict_get fold_left fst snd String.eqb Ascii.eqb Bool.eqb bind
         Py.eq_str Py.iter].
    now rewrite each_feature_skip.
Qed.

End TraversalClaims.

Section TraversalClaimsExamples.

Import Core.

(** Outside the data model: unpacking a position of three coordinates into
    [x, y] raises, after the counter was advanced and before anything is
    yielded. *)
Lemma three_coordinates_raise :
  feature Plain 0 Examples.raised_triangle = (1%Z, [], Raised)
  /\ process_document Plain Examples.raised_triangle = ([], Raised).
Proof. split; reflexivity. Qed.

Lemma unsupported_feature_skipped_witness :
  Spec.unsupported Examples.bare_feature = true
  /\ Spec.unsupported Examples.untyped_geometry = true
  /\ Spec.unsupported Examples.point_feature = true
  /\ fst (process_document Plain
            (Spec.feature_collection
               ([Spec.polygon_feature [Examples.square_ccw]]
                ++ Examples.bare_feature
                   :: [Spec.polygon_feature [Examples.triangle]])))
     = [(1%Z, 16%float, Int 0, 0%float); (2%Z, 6%float, Int 0, 0%float)].
Proof.
  split; [reflexivity|]. split; [reflexivity|]. split; [reflexivity|].
  destruct (unsupported_feature_skipped Plain Examples.bare_feature eq_refl)
    as [_ [_ H]].
  rewrite H. reflexivity.
Defined.

End TraversalClaimsExamples.

(** ** The program claims *)

Section ProgramClaims.

Variable s : summation.
Variable json_load : string -> result json.
Variable path_join : string -> string -> string.
Variable write_row : report_row -> result string.

Lemma collect_raises (fs : filesystem) (folder : string) (filenames : list string)
      (f : string) :
  In f filenames ->
  selected f = true ->
  snd (process_geojson s json_load fs (path_join folder f)) = Raised ->
  collect s json_load path_join fs folder filenames = Raises.
Proof.
  intros Hin Hsel Hraise.
  induction filenames as [|g rest IH]; [contradiction|].
  cbn [collect].
  destruct (selected g) eqn:Hg.
  - destruct (process_geojson s json_load fs (path_join folder g)) as [items [|]] eqn:Hp;
      [|reflexivity].
    destruct Hin as [->|Hin]; [rewrite Hp in Hraise; discriminate|].
    now rewrite (IH Hin).
  - destruct Hin as [->|Hin]; [congruence|]. now apply IH.
Qed.

Lemma collect_rows (fs : filesystem) (folder : string) (filenames : list string)
      (rows : list report_row) :
  collect s json_load path_join fs folder filenames = Returns rows ->
  rows = flat_map
           (fun f => map (row_of f)
                         (fst (process_geojson s json_load fs (path_join folder f))))
           (filter selected filenames).
Proof.
  revert rows; induction filenames as [|g rest IH]; intros rows; cbn [collect filter].
  - now intros [= <-].
  - destruct (selected g); [|apply IH].
    cbn [flat_map].
    destruct (process_geojson s json_load fs (path_join folder g)) as [items [|]];
      [|discriminate].
    destruct (collect s json_load path_join fs folder rest) as [more|];
      [|discriminate].
    cbn [bind fst]. intros [= <-]. f_equal. now apply IH.
Qed.

Lemma collect_agree (fs1 fs2 : filesystem) (folder : string) (filenames : list string) :
  (forall f, In f filenames -> selected f = true ->
             read_text fs1 (path_join folder f) = read_text fs2 (path_join folder f)) ->
  collect s json_load path_join fs1 folder filenames
  = collect s json_load path_join fs2 folder filenames.
Proof.
  induction filenames as [|g rest IH]; intros Hread; [reflexivity|].
  cbn [collect].
  rewrite IH by (intros f Hf; apply Hread; now right).
  destruct (selected g) eqn:Hg; [|reflexivity].
  unfold process_geojson, loaded. rewrite (Hread g (or_introl eq_refl) Hg). reflexivity.
Qed.

Lemma collect_returns (fs : filesystem) (folder : string) (filenames : list string) :
  (forall f, In f filenames -> selected f = true ->
             snd (process_geojson s json_load fs (path_join folder f)) = Exhausted) ->
  collect s json_load path_join fs folder filenames
  = Returns (Spec.report_rows
               (fun f => fst (process_geojson s json_load fs (path_join folder f)))
               filenames).
Proof.
  unfold Spec.report_rows.
  induction filenames as [|g rest IH]; intros Hall; [reflexivity|].
  cbn [collect filter].
  rewrite IH by (intros f Hf; apply Hall; now right).
  destruct (selected g) eqn:Hg; [|reflexivity].
  cbn [flat_map]. pose proof (Hall g (or_introl eq_refl) Hg) as He.
  destruct (process_geojson s json_load fs (path_join folder g)) as [items e].
  cbn [snd] in He. subst e. reflexivity.
Qed.

Lemma concat_cons (line : string) (lines : list string) :
  String.concat EmptyString (line :: lines)
  = (line ++ String.concat EmptyString lines)%string.
Proof.
  destruct lines as [|l lines]; [|reflexivity].
  cbn [String.concat]. induction line as [|c line IH]; [reflexivity|].
  cbn [append]. now rewrite <- IH.
Qed.

Lemma write_rows_all (rows : list report_row) (lines : list string) :
  Py.all write_row rows = Returns lines ->
  write_rows write_row rows = (String.concat EmptyString lines, Exhausted).
Proof.
  revert lines; induction rows as [|row rest IH]; intros lines; cbn [Py.all write_rows].
  - now intros [= <-].
  - destruct (write_row row) as [line|]; [|discriminate]. cbn [bind].
    destruct (Py.all write_row rest) as [more|]; [|discriminate]. cbn [bind].
    intros [= <-]. rewrite (IH more eq_refl). now rewrite concat_cons.
Qed.

Lemma write_rows_exhausted (rows : list report_row) :
  snd (write_rows write_row rows) = Exhausted ->
  exists lines : list string, Py.all write_row rows = Returns lines.
Proof.
  induction rows as [|row rest IH]; cbn [Py.all write_rows].
  - intros _. now exists [].
  - destruct (write_row row) as [line|]; [|discriminate]. cbn [bind].
    destruct (write_rows write_row rest) as [bytes e]. cbn [snd] in *.
    intros He. destruct (IH He) as [more ->]. now exists (line :: more).
Qed.

Lemma collect_exhausted (fs : filesystem) (folder : string) (filenames : list string)
      (rows : list report_row) (f : string) :
  collect s json_load path_join fs folder filenames = Returns rows ->
  In f filenames -> selected f = true ->
  snd (process_geojson s json_load fs (path_join folder f)) = Exhausted.
Proof.
  intros Hc Hin Hsel.
  destruct (snd (process_geojson s json_load fs (path_join folder f))) eqn:He;
    [reflexivity|].
  rewrite (collect_raises fs folder filenames f Hin Hsel He) in Hc.
  discriminate.
Qed.

Lemma write_rows_each (rows : list report_row) :
  snd (write_rows write_row rows) = Exhausted
  <-> (forall row, In row rows -> write_row row <> Raises).
Proof.
  induction rows as [|row rest IH]; cbn [write_rows].
  - split; [intros _ row [] | reflexivity].
  - destruct (write_row row) as [line|] eqn:Hrow.
    + destruct (write_rows write_row rest) as [bytes e]. cbn [snd] in *.
      rewrite IH. split.
      * intros Hrest r [<-|Hin]; [congruence | now apply Hrest].
      * intros Hall r Hin. apply Hall. now right.
    + cbn [snd]. split; [discriminate|].
      intros Hall. now destruct (Hall row (or_introl eq_refl)).
Qed.

Lemma main_returns_inv (fs : filesystem) (folder output : string) (table : report) :
  main s json_load path_join write_row fs folder output = Returns table ->
  exists (filenames : list string) (rs : list report_row),
    listdir fs folder = Returns filenames
    /\ collect s json_load path_join fs folder filenames = Returns rs
    /\ writable fs output = true
    /\ snd (write_rows write_row rs) = Exhausted
    /\ table = {| fieldnames := ["file"; "feature_index"; "polygon_area";
                                 "hole_area"; "hole_percent"]%string;
                  rows := rs |}.
Proof.
  unfold main.
  destruct (listdir fs folder) as [filenames|]; [|discriminate].
  cbn [bind].
  destruct (collect s json_load path_join fs folder filenames) as [rs|] eqn:Hc;
    [|discriminate].
  cbn [bind]. destruct (writable fs output); [|discriminate].
  destruct (write_rows write_row rs) as [bytes [|]] eqn:Hw; [|discriminate].
  intros [= <-]. exists filenames, rs. rewrite Hw. now repeat split.
Qed.

Lemma filter_permutation {A : Type} (f : A -> bool) (l l' : list A) :
  Permutation l l' -> Permutation (filter f l) (filter f l').
Proof.
  induction 1 as [|x l l' _ IH|x y l|l l' l'' _ IH1 _ IH2]; cbn [filter].
  - constructor.
  - destruct (f x); [now constructor | exact IH].
  - destruct (f x), (f y); try apply Permutation_refl. apply perm_swap.
  - now apply Permutation_trans with (l' := filter f l').
Qed.

Lemma flat_map_agree {A B : Type} (g h : A -> list B) (l : list A) :
  (forall a, In a l -> g a = h a) -> flat_map g l = flat_map h l.
Proof.
  induction l as [|a l IH]; intros Hgh; [reflexivity|].
  cbn [flat_map]. rewrite (Hgh a (or_introl eq_refl)), IH; [reflexivity|].
  intros b Hb. apply Hgh. now right.
Qed.

Lemma process_geojson_agree (fs1 fs2 : filesystem) (path : string) :
  read_text fs1 path = read_text fs2 path ->
  process_geojson s json_load fs1 path = process_geojson s json_load fs2 path.
Proof. intros H. unfold process_geojson, loaded. now rewrite H. Qed.


(** C8, as amended: where the folder can be listed, every selected file is
    processed to its end, the output can be opened and every row can be
    written, [main] writes the header line followed by the lines of the
    rows of the selected files, in listing order, each file's rows in the
    order its document yields them, and nothing else; and two runs that see
    the same listing, in the same order, and the same text in every
    selected file, and can both open the output or both not, end the same
    way and leave the same bytes in the output file.  Where the second run
    sees the same names in another order, it writes the same rows in
    another order. *)
Theorem main_deterministic :
  (forall (fs : filesystem) (folder output : string) (filenames lines : list string),
      listdir fs folder = Returns filenames ->
      (forall f, In f filenames -> selected f = true ->
                 snd (process_geojson s json_load fs (path_join folder f)) = Exhausted) ->
      writable fs output = true ->
      Py.all write_row
             (Spec.report_rows
                (fun f => fst (process_geojson s json_load fs (path_join folder f)))
                filenames)
      = Returns lines ->
      main s json_load path_join write_row fs folder output
      = Returns {| fieldnames := ["file"; "feature_index"; "polygon_area";
                                  "hole_area"; "hole_percent"]%string;
                   rows := Spec.report_rows
                             (fun f => fst (process_geojson s json_load fs
                                                            (path_join folder f)))
                             filenames |}
      /\ output_file s json_load path_join write_row fs folder output
         = Some (header_line ++ String.concat EmptyString lines)%string)
  /\ (forall (fs1 fs2 : filesystem) (folder output : string),
         listdir fs1 folder = listdir fs2 folder ->
         (forall (filenames : list string) (f : string),
             listdir fs1 folder = Returns filenames ->
             In f filenames -> selected f = true ->
             read_text fs1 (path_join folder f) = read_text fs2 (path_join folder f)) ->
         writable fs1 output = writable fs2 output ->
         main s json_load path_join write_row fs1 folder output
         = main s json_load path_join write_row fs2 folder output
         /\ output_file s json_load path_join write_row fs1 folder output
            = output_file s json_load path_join write_row fs2 folder output)
  /\ (forall (fs1 fs2 : filesystem) (folder output : string)
             (listing relisting : list string) (table : report),
         listdir fs1 folder = Returns listing ->
         listdir fs2 folder = Returns relisting ->
         Permutation listing relisting ->
         (forall f : string,
             In f listing -> selected f = true ->
             read_text fs1 (path_join folder f) = read_text fs2 (path_join folder f)) ->
         writable fs2 output = true ->
         main s json_load path_join write_row fs1 folder output = Returns table ->
         exists table' : report,
           main s json_load path_join write_row fs2 folder output = Returns table'
           /\ Permutation (rows table) (rows table')).
Proof.
  split; [|split].
  - intros fs folder output filenames lines Hls Hall Hw Hlines.
    unfold main, output_file. rewrite Hls. cbn [bind].
    rewrite (collect_returns fs folder filenames Hall). cbn [bind].
    rewrite Hw, (write_rows_all _ lines Hlines). now split.
  - intros fs1 fs2 folder output Hls Hread Hw. unfold main, output_file.
    rewrite <- Hls, <- Hw.
    destruct (listdir fs1 folder) as [filenames|] eqn:Hl; [|now split].
    cbn [bind]. rewrite (collect_agree fs1 fs2 folder filenames); [now split|].
    intros f Hin Hsel. now apply (Hread filenames).
  - intros fs1 fs2 folder output listing relisting table Hls1 Hls2 Hperm Hread Hw2 Hm.
    apply main_returns_inv in Hm.
    destruct Hm as [filenames [rs [Hls [Hc [_ [Hrows ->]]]]]].
    rewrite Hls1 in Hls. injection Hls as <-.
    assert (Hsame : forall f, In f listing -> selected f = true ->
                              process_geojson s json_load fs1 (path_join folder f)
                              = process_geojson s json_load fs2 (path_join folder f))
      by (intros f Hin Hsel; now apply process_geojson_agree, Hread).
    assert (Hall : forall f, In f relisting -> selected f = true ->
                             snd (process_geojson s json_load fs2 (path_join folder f))
                             = Exhausted).
    { intros f Hin Hsel. apply Permutation_sym in Hperm.
      pose proof (Permutation_in f Hperm Hin) as Hin1.
      rewrite <- (Hsame f Hin1 Hsel).
      exact (collect_exhausted fs1 folder listing rs f Hc Hin1 Hsel). }
    pose proof (collect_returns fs2 folder relisting Hall) as Hc2.
    apply collect_rows in Hc.
    set (rs2 := Spec.report_rows
                  (fun f => fst (process_geojson s json_load fs2 (path_join folder f)))
                  relisting) in *.
    assert (Hp : Permutation rs rs2).
    { rewrite Hc. unfold rs2, Spec.report_rows.
      rewrite (flat_map_agree
                 (fun f => map (row_of f)
                               (fst (process_geojson s json_load fs1
                                                     (path_join folder f))))
                 (fun f => map (row_of f)
                               (fst (process_geojson s json_load fs2
                                                     (path_join folder f))))).
      - apply Permutation_flat_map. now apply filter_permutation.
      - intros f Hf. apply filter_In in Hf. destruct Hf as [Hin Hsel].
        now rewrite (Hsame f Hin Hsel). }
    eexists. unfold main. rewrite Hls2. cbn [bind]. rewrite Hc2. cbn [bind].
    rewrite Hw2.
    assert (Hrows2 : snd (write_rows write_row rs2) = Exhausted).
    { apply write_rows_each. intros row Hin.
      apply (proj1 (write_rows_each rs) Hrows).
      apply Permutation_sym in Hp. exact (Permutation_in row Hp Hin). }
    clearbody rs2.
    destruct (write_rows write_row rs2) as [bytes e]. cbn [snd] in Hrows2. subst e.
    split; [reflexivity | exact Hp].
Qed.

End ProgramClaims.

(** ** The program on the example folders *)

Section ProgramExamples.

Import Examples.



Lemma main_deterministic_witness :
  (main Plain load join write lots_folder "data" "hole_report.csv"
   = Returns
       {| fieldnames := header;
          rows := [{| file := "b.geojson"; feature_index := 1; polygon_area := 16;
                      hole_area := Int 0; hole_percent := 0 |};
                   {| file := "b.geojson"; feature_index := 2; polygon_area := 6;
                      hole_area := Int 0; hole_percent := 0 |};
                   {| file := "b.geojson"; feature_index := 3; polygon_area := 96;
                      hole_area := Float 4;
                      hole_percent := 0x1.0aaaaaaaaaaaap+2 |};
                   {| file := "A.JSON"; feature_index := 1; polygon_area := 16;
                      hole_area := Int 0; hole_percent := 0 |}] |}
   /\ output_file Plain load join write lots_folder "data" "hole_report.csv"
      = Some (header_line
              ++ String.concat EmptyString
                   [line "b.geojson,1,16.0,0,0.0"; line "b.geojson,2,6.0,0,0.0";
                    line "b.geojson,3,96.0,4.0,4.166666666666666";
                    line "A.JSON,1,16.0,0,0.0"])%string)
  /\ (main Plain load join write (noted_folder "first") "data" "hole_report.csv"
      = main Plain load join write (noted_folder "second") "data" "hole_report.csv"
      /\ output_file Plain load join write (noted_folder "first") "data" "hole_report.csv"
         = output_file Plain load join write (noted_folder "second") "data"
                       "hole_report.csv")
  /\ (exists table : report,
        main Plain load join write relisted_folder "data" "hole_report.csv"
        = Returns table
        /\ Permutation
             [row_of "b.geojson" (1%Z, 16%float, Int 0, 0%float);
              row_of "b.geojson" (2%Z, 6%float, Int 0, 0%float);
              row_of "b.geojson" (3%Z, 96%float, Float 4, 0x1.0aaaaaaaaaaaap+2%float);
              row_of "A.JSON" (1%Z, 16%float, Int 0, 0%float)]
             (rows table)).
Proof.
  destruct (main_deterministic Plain load join write) as [Hwritten [Hsame Hrelisted]].
  split; [|split].
  - apply (Hwritten lots_folder "data" "hole_report.csv"
                    ["b.geojson"; "notes.txt"; "A.JSON"])%string.
    + reflexivity.
    + intros f [<-|[<-|[<-|[]]]] Hsel;
        [reflexivity | discriminate | reflexivity].
    + reflexivity.
    + reflexivity.
  - apply Hsame.
    + reflexivity.
    + intros filenames f [= <-] [<-|[<-|[<-|[]]]] Hsel;
        [reflexivity | reflexivity | discriminate].
    + reflexivity.
  - apply (Hrelisted lots_folder relisted_folder "data" "hole_report.csv"
                     ["b.geojson"; "notes.txt"; "A.JSON"]
                     ["A.JSON"; "notes.txt"; "b.geojson"]
                     {| fieldnames := header;
                        rows := [row_of "b.geojson" (1%Z, 16%float, Int 0, 0%float);
                                 row_of "b.geojson" (2%Z, 6%float, Int 0, 0%float);
                                 row_of "b.geojson"
                                        (3%Z, 96%float, Float 4,
                                         0x1.0aaaaaaaaaaaap+2%float);
                                 row_of "A.JSON" (1%Z, 16%float, Int 0, 0%float)] |})%string.
    + reflexivity.
    + reflexivity.
    + apply Permutation_trans with (l' := ["notes.txt"; "b.geojson"; "A.JSON"]%string).
      * apply perm_swap.
      * apply Permutation_trans
          with (l' := ["notes.txt"; "A.JSON"; "b.geojson"]%string).
        -- apply perm_skip, perm_swap.
        -- apply perm_swap.
    + intros f [<-|[<-|[<-|[]]]] Hsel; reflexivity.
    + reflexivity.
    + reflexivity.
Defined.

(** C8 fails as stated: the output depends on the order in which the folder
    is listed, which the folder's contents do not fix.  The same three
    files with the same texts, listed in another order, give another
    output file. *)
Lemma listing_order_matters :
  (exists listing relisting : list string,
      listdir lots_folder "data" = Returns listing
      /\ listdir relisted_folder "data" = Returns relisting
      /\ Permutation listing relisting
      /\ Forall (fun f => read_text lots_folder (join "data" f)
                          = read_text relisted_folder (join "data" f)) listing)
  /\ output_file Plain load join write lots_folder "data" "hole_report.csv"
     = Some (header_line
             ++ String.concat EmptyString
                  [line "b.geojson,1,16.0,0,0.0"; line "b.geojson,2,6.0,0,0.0";
                   line "b.geojson,3,96.0,4.0,4.166666666666666";
                   line "A.JSON,1,16.0,0,0.0"])%string
  /\ output_file Plain load join write relisted_folder "data" "hole_report.csv"
     = Some (header_line
             ++ String.concat EmptyString
                  [line "A.JSON,1,16.0,0,0.0"; line "b.geojson,1,16.0,0,0.0";
                   line "b.geojson,2,6.0,0,0.0";
                   line "b.geojson,3,96.0,4.0,4.166666666666666"])%string
  /\ output_file Plain load join write lots_folder "data" "hole_report.csv"
     <> output_file Plain load join write relisted_folder "data" "hole_report.csv".
Proof.
  split; [|split; [|split]].
  - exists ["b.geojson"; "notes.txt"; "A.JSON"]%string,
           ["A.JSON"; "notes.txt"; "b.geojson"]%string.
    split; [reflexivity|]. split; [reflexivity|]. split.
    + apply Permutation_trans with (l' := ["notes.txt"; "b.geojson"; "A.JSON"]%string).
      * apply perm_swap.
      * apply Permutation_trans
          with (l' := ["notes.txt"; "A.JSON"; "b.geojson"]%string).
        -- apply perm_skip, perm_swap.
        -- apply perm_swap.
    + repeat constructor.
  - reflexivity.
  - reflexivity.
  - vm_compute. discriminate.
Qed.

End ProgramExamples.

(** ** Bit lengths and rounding *)

Section BitLength.

Open Scope Z_scope.

Lemma digits2_pos_size (p : positive) : digits2_pos p = Pos.size p.
Proof. induction p as [p IH|p IH|]; simpl; now rewrite ?IH. Qed.

Lemma Zdigits2_log2 (m : Z) : 0 < m -> Zdigits2 m = Z.log2 m + 1.
Proof.
  destruct m as [|p|p]; try lia. intros _. simpl Zdigits2.
  rewrite digits2_pos_size. destruct p; simpl; lia.
Qed.

Lemma Zdigits2_nonneg (m : Z) : 0 <= Zdigits2 m.
Proof. destruct m; simpl; lia. Qed.

Lemma Zdigits2_pos (m : Z) : 0 < m -> 1 <= Zdigits2 m.
Proof.
  intros Hm. rewrite Zdigits2_log2 by exact Hm.
  pose proof (Z.log2_nonneg m). lia.
Qed.

(** The bit length of a natural number [m] is at most [k] exactly when
    [m < 2 ^ k]. *)
Lemma Zdigits2_le_iff (m k : Z) :
  0 <= m -> 0 <= k -> (Zdigits2 m <= k <-> m < 2 ^ k).
Proof.
  intros Hm Hk.
  destruct (Z.eq_dec m 0) as [->|Hne].
  - simpl. split; intros _; [apply Z.pow_pos_nonneg; lia | exact Hk].
  - rewrite Zdigits2_log2 by lia.
    rewrite (Z.log2_lt_pow2 m k) by lia. lia.
Qed.

Lemma Zdigits2_mono (a b : Z) : 0 <= a <= b -> Zdigits2 a <= Zdigits2 b.
Proof.
  intros [Ha Hab].
  apply Zdigits2_le_iff; [exact Ha | apply Zdigits2_nonneg|].
  apply Z.le_lt_trans with (m := b); [exact Hab|].
  apply Zdigits2_le_iff; [lia | apply Zdigits2_nonneg | lia].
Qed.

Lemma Zdigits2_succ (m : Z) : 0 <= m -> Zdigits2 (m + 1) <= Zdigits2 m + 1.
Proof.
  intros Hm. pose proof (Zdigits2_nonneg m) as Hd.
  apply Zdigits2_le_iff; [lia | lia |].
  assert (H : m < 2 ^ Zdigits2 m) by (apply Zdigits2_le_iff; lia).
  rewrite Z.pow_add_r by lia. lia.
Qed.

Lemma Zdigits2_mul (a b : Z) :
  0 <= a -> 0 <= b -> Zdigits2 (a * b) <= Zdigits2 a + Zdigits2 b.
Proof.
  intros Ha Hb.
  pose proof (Zdigits2_nonneg a) as Hda. pose proof (Zdigits2_nonneg b) as Hdb.
  apply Zdigits2_le_iff; [nia | lia |].
  assert (Ha' : a < 2 ^ Zdigits2 a) by (apply Zdigits2_le_iff; lia).
  assert (Hb' : b < 2 ^ Zdigits2 b) by (apply Zdigits2_le_iff; lia).
  rewrite Z.pow_add_r by lia. nia.
Qed.

(** Dropping [n] low bits shortens a number by [n] bits, down to none. *)
Lemma Zdigits2_shr (m n : Z) :
  0 <= m -> 0 <= n -> Zdigits2 (m / 2 ^ n) = Z.max 0 (Zdigits2 m - n).
Proof.
  intros Hm Hn.
  assert (Hp : 0 < 2 ^ n) by (apply Z.pow_pos_nonneg; lia).
  destruct (Z.eq_dec (m / 2 ^ n) 0) as [Hz|Hnz].
  - rewrite Hz. simpl Zdigits2.
    assert (Hlt : m < 2 ^ n) by (apply Z.div_small_iff in Hz; lia).
    apply Zdigits2_le_iff in Hlt; lia.
  - assert (Hq : 0 < m / 2 ^ n) by (pose proof (Z.div_pos m (2 ^ n)); lia).
    assert (Hm' : 0 < m) by (destruct (Z.eq_dec m 0) as [->|]; [now rewrite Z.div_0_l in Hnz by lia | lia]).
    rewrite !Zdigits2_log2 by assumption.
    rewrite <- Z.shiftr_div_pow2 by exact Hn.
    rewrite Z.log2_shiftr by exact Hm'.
    assert (Hge : 2 ^ n <= m).
    { destruct (Z_lt_le_dec m (2 ^ n)) as [Hlt|]; [|assumption].
      rewrite Z.div_small in Hnz by lia. lia. }
    assert (n <= Z.log2 m) by (apply Z.log2_le_pow2; lia).
    lia.
Qed.

Lemma Zdigits2_shl (m k : Z) :
  0 < m -> 0 <= k -> Zdigits2 (m * 2 ^ k) = Zdigits2 m + k.
Proof.
  intros Hm Hk.
  assert (Hp : 0 < 2 ^ k) by (apply Z.pow_pos_nonneg; lia).
  rewrite !Zdigits2_log2 by nia.
  rewrite <- Z.shiftl_mul_pow2 by exact Hk.
  rewrite Z.log2_shiftl by lia. lia.
Qed.

(** The quotient of [a] by [b] is at most one bit longer than the
    difference of their lengths. *)
Lemma Zdigits2_div (a b : Z) :
  0 <= a -> 0 < b -> Zdigits2 (a / b) <= Z.max 0 (Zdigits2 a - Zdigits2 b + 1).
Proof.
  intros Ha Hb.
  pose proof (Zdigits2_pos b Hb) as Hdb.
  assert (Hlow : 2 ^ (Zdigits2 b - 1) <= b).
  { rewrite Zdigits2_log2 by exact Hb.
    replace (Z.log2 b + 1 - 1) with (Z.log2 b) by lia.
    apply Z.log2_spec. exact Hb. }
  assert (Hp : 0 < 2 ^ (Zdigits2 b - 1)) by (apply Z.pow_pos_nonneg; lia).
  assert (Hq : a / b <= a / 2 ^ (Zdigits2 b - 1))
    by (apply Z.div_le_compat_l; lia).
  assert (Hq0 : 0 <= a / b) by (apply Z.div_pos; lia).
  pose proof (Zdigits2_mono (a / b) (a / 2 ^ (Zdigits2 b - 1)) (conj Hq0 Hq)) as Hmono.
  rewrite Zdigits2_shr in Hmono by lia. lia.
Qed.

End BitLength.

(** ** Rounding keeps magnitudes *)

Section Rounding.

Open Scope Z_scope.

Lemma shr_1_m (mrs : shr_record) :
  0 <= shr_m mrs -> shr_m (shr_1 mrs) = shr_m mrs / 2.
Proof.
  destruct mrs as [m r s]. cbn [shr_m]. intros Hm.
  destruct m as [|[p|p|]|p]; cbn [shr_1 shr_m]; try lia.
  - reflexivity.
  - apply Z.div_unique with (r := 1); lia.
  - apply Z.div_unique with (r := 0); lia.
  - reflexivity.
Qed.

Lemma iter_shr_1_m (p : positive) (mrs : shr_record) :
  0 <= shr_m mrs ->
  shr_m (iter_pos shr_1 p mrs) = shr_m mrs / 2 ^ Z.pos p.
Proof.
  revert mrs; induction p as [p IH|p IH|]; intros mrs Hm; cbn [iter_pos].
  - assert (H1 : 0 <= shr_m (shr_1 mrs))
      by (rewrite shr_1_m by exact Hm; apply Z.div_pos; lia).
    assert (Hp : 0 < 2 ^ Z.pos p) by (apply Z.pow_pos_nonneg; lia).
    assert (H2 : 0 <= shr_m (iter_pos shr_1 p (shr_1 mrs)))
      by (rewrite IH by exact H1; apply Z.div_pos; lia).
    rewrite IH by exact H2. rewrite IH by exact H1. rewrite shr_1_m by exact Hm.
    rewrite !Z.div_div by lia.
    replace (Z.pos p~1) with (1 + Z.pos p + Z.pos p) by lia.
    rewrite !Z.pow_add_r by lia. rewrite Z.pow_1_r. now rewrite Z.mul_assoc.
  - assert (Hp : 0 < 2 ^ Z.pos p) by (apply Z.pow_pos_nonneg; lia).
    assert (H2 : 0 <= shr_m (iter_pos shr_1 p mrs))
      by (rewrite IH by exact Hm; apply Z.div_pos; lia).
    rewrite IH by exact H2. rewrite IH by exact Hm.
    rewrite Z.div_div by lia.
    replace (Z.pos p~0) with (Z.pos p + Z.pos p) by lia.
    now rewrite Z.pow_add_r by lia.
  - rewrite shr_1_m by exact Hm. reflexivity.
Qed.

(** [shr_fexp] drops the low bits that do not fit the format. *)
Lemma shr_fexp_spec (m e : Z) (l : location) :
  0 <= m ->
  let n := Z.max 0 (fexp prec emax (Zdigits2 m + e) - e) in
  shr_m (fst (shr_fexp prec emax m e l)) = m / 2 ^ n
  /\ snd (shr_fexp prec emax m e l) = e + n.
Proof.
  intros Hm n. unfold shr_fexp, shr. fold n.
  assert (Hrec : shr_m (shr_record_of_loc m l) = m) by (now destruct l as [|[]]).
  destruct (fexp prec emax (Zdigits2 m + e) - e) as [|p|p] eqn:Hn; cbn [fst snd].
  - subst n. cbn. rewrite Hrec, Z.div_1_r. split; lia.
  - subst n. rewrite iter_shr_1_m by (rewrite Hrec; exact Hm).
    rewrite Hrec. rewrite Z.max_r by lia. split; reflexivity.
  - subst n. rewrite Z.max_l by lia. cbn. rewrite Hrec, Z.div_1_r. split; lia.
Qed.

Lemma round_nearest_even_bounds (m : Z) (l : location) :
  m <= round_nearest_even m l <= m + 1.
Proof.
  destruct l as [|[]]; cbn [round_nearest_even]; try lia.
  destruct (Z.even m); lia.
Qed.

(** The steps of [binary_round_aux], with the bit lengths along the way. *)
Lemma binary_round_aux_steps (s : bool) (mx ex : Z) (lx : location) :
  0 <= mx ->
  exists m1 e1 m2 m3 e3 : Z,
    binary_round_aux prec emax s mx ex lx
    = match m3 with
      | Z0 => S754_zero s
      | Z.pos m => if e3 <=? emax - prec then S754_finite s m e3 else S754_infinity s
      | Z.neg _ => S754_nan
      end
    /\ 0 <= m1 /\ m1 <= m2 <= m1 + 1 /\ 0 <= m3
    /\ e1 = ex + Z.max 0 (fexp prec emax (Zdigits2 mx + ex) - ex)
    /\ Zdigits2 m1 = Z.max 0 (Zdigits2 mx - (e1 - ex))
    /\ e3 = e1 + Z.max 0 (fexp prec emax (Zdigits2 m2 + e1) - e1)
    /\ Zdigits2 m3 = Z.max 0 (Zdigits2 m2 - (e3 - e1)).
Proof.
  intros Hmx. unfold binary_round_aux.
  destruct (shr_fexp_spec mx ex lx Hmx) as [Hm1 He1].
  destruct (shr_fexp prec emax mx ex lx) as [mrs' e1]. cbn [fst snd] in Hm1, He1.
  set (n1 := Z.max 0 (fexp prec emax (Zdigits2 mx + ex) - ex)) in *.
  assert (Hp1 : 0 < 2 ^ n1) by (apply Z.pow_pos_nonneg; lia).
  assert (Hm1' : 0 <= shr_m mrs') by (rewrite Hm1; apply Z.div_pos; lia).
  pose proof (round_nearest_even_bounds (shr_m mrs') (loc_of_shr_record mrs')) as Hr.
  set (m2 := round_nearest_even (shr_m mrs') (loc_of_shr_record mrs')) in *.
  assert (Hm2 : 0 <= m2) by lia.
  destruct (shr_fexp_spec m2 e1 loc_Exact Hm2) as [Hm3 He3].
  destruct (shr_fexp prec emax m2 e1 loc_Exact) as [mrs'' e3]. cbn [fst snd] in Hm3, He3.
  set (n2 := Z.max 0 (fexp prec emax (Zdigits2 m2 + e1) - e1)) in *.
  assert (Hp2 : 0 < 2 ^ n2) by (apply Z.pow_pos_nonneg; lia).
  exists (shr_m mrs'), e1, m2, (shr_m mrs''), e3.
  split; [reflexivity|].
  split; [exact Hm1'|]. split; [exact Hr|].
  split; [rewrite Hm3; apply Z.div_pos; lia|].
  split; [exact He1|].
  split; [rewrite Hm1, Zdigits2_shr by lia; f_equal; lia|].
  split; [exact He3|].
  rewrite Hm3, Zdigits2_shr by lia. f_equal. lia.
Qed.

(** Rounding stays finite, and one bit at most above its argument, when
    the argument ends below the largest exponent. *)
Lemma binary_round_aux_below (s : bool) (mx ex : Z) (lx : location) (k : Z) :
  0 <= mx -> ex <= emax - prec -> Zdigits2 mx + ex <= k ->
  emin <= k -> k <= emax - 1 ->
  below (k + 1) (binary_round_aux prec emax s mx ex lx).
Proof.
  intros Hmx Hex Hk Hlo Hhi.
  destruct (binary_round_aux_steps s mx ex lx Hmx)
    as (m1 & e1 & m2 & m3 & e3 & -> & Hm1 & Hm2 & Hm3 & He1 & Hd1 & He3 & Hd3).
  assert (Hd2 : Zdigits2 m2 <= Zdigits2 m1 + 1).
  { apply Z.le_trans with (m := Zdigits2 (m1 + 1));
      [apply Zdigits2_mono; lia | apply Zdigits2_succ; lia]. }
  pose proof (Zdigits2_nonneg mx) as Hn0.
  pose proof (Zdigits2_nonneg m1) as Hn1.
  pose proof (Zdigits2_nonneg m2) as Hn2.
  unfold fexp, SpecFloat.emin, emax, prec in *.
  destruct m3 as [|m|m]; cbn [below]; trivial.
  change (Z.pos (digits2_pos m)) with (Zdigits2 (Z.pos m)).
  assert (He : e3 <= 971) by lia.
  replace (e3 <=? 1024 - 53) with true by (symmetry; apply Z.leb_le; lia).
  cbn [below]. change (Z.pos (digits2_pos m)) with (Zdigits2 (Z.pos m)).
  unfold emax, prec. lia.
Qed.

(** Rounding a positive number does not shorten it. *)
Lemma binary_round_aux_above (s : bool) (mx ex : Z) (lx : location)
      (s' : bool) (m : positive) (e : Z) :
  0 < mx ->
  binary_round_aux prec emax s mx ex lx = S754_finite s' m e ->
  Zdigits2 mx + ex <= Z.pos (digits2_pos m) + e.
Proof.
  intros Hmx Hr.
  destruct (binary_round_aux_steps s mx ex lx (Z.lt_le_incl _ _ Hmx))
    as (m1 & e1 & m2 & m3 & e3 & Hsteps & Hm1 & Hm2 & Hm3 & He1 & Hd1 & He3 & Hd3).
  rewrite Hsteps in Hr.
  assert (Hd2 : Zdigits2 m1 <= Zdigits2 m2) by (apply Zdigits2_mono; lia).
  destruct m3 as [|m'|m']; try discriminate.
  destruct (e3 <=? emax - prec); try discriminate.
  injection Hr as _ <- <-.
  pose proof (Zdigits2_pos (Z.pos m') eq_refl) as Hpos.
  change (Z.pos (digits2_pos m')) with (Zdigits2 (Z.pos m')).
  lia.
Qed.

End Rounding.

(** ** The percentage does not overflow *)

Section Percentage.

Open Scope Z_scope.

Lemma digits2_pos_iter_xO (m d : positive) :
  digits2_pos (Pos.iter xO m d) = (digits2_pos m + d)%positive.
Proof.
  induction d as [|d IH] using Pos.peano_ind.
  - cbn. lia.
  - rewrite Pos.iter_succ. cbn [digits2_pos]. rewrite IH. lia.
Qed.

(** Aligning a mantissa to a smaller exponent lengthens it by the
    difference. *)
Lemma shl_align_digits (m : positive) (e e' : Z) :
  e' <= e ->
  Z.pos (digits2_pos (fst (shl_align m e e'))) = Z.pos (digits2_pos m) + (e - e').
Proof.
  intros He. unfold shl_align.
  destruct (e' - e) as [|d|d] eqn:Hd; cbn [fst]; try lia.
  rewrite digits2_pos_iter_xO. lia.
Qed.

Lemma shl_align_sum (m : positive) (e e' : Z) :
  Z.pos (digits2_pos (fst (shl_align m e e'))) + snd (shl_align m e e')
  = Z.pos (digits2_pos m) + e.
Proof.
  unfold shl_align.
  destruct (e' - e) as [|d|d] eqn:Hd; cbn [fst snd]; try lia.
  rewrite digits2_pos_iter_xO. lia.
Qed.

Lemma shl_align_exponent (m : positive) (e e' : Z) : snd (shl_align m e e') <= e.
Proof.
  unfold shl_align. destruct (e' - e) as [|d|d] eqn:Hd; cbn [snd]; lia.
Qed.

Lemma binary_round_below (s : bool) (m : positive) (e k : Z) :
  e <= emax - prec -> Z.pos (digits2_pos m) + e <= k ->
  emin <= k -> k <= emax - 1 ->
  below (k + 1) (binary_round prec emax s m e).
Proof.
  intros He Hk Hlo Hhi. unfold binary_round.
  pose proof (shl_align_sum m e (fexp prec emax (Z.pos (digits2_pos m) + e))) as Hsum.
  pose proof (shl_align_exponent m e (fexp prec emax (Z.pos (digits2_pos m) + e)))
    as Hexp.
  destruct (shl_align m e _) as [mz ez]. cbn [fst snd] in Hsum, Hexp.
  apply binary_round_aux_below; try assumption; try lia.
  cbn [Zdigits2]. lia.
Qed.

Lemma binary_round_above (s : bool) (m : positive) (e : Z)
      (s' : bool) (m' : positive) (e' : Z) :
  binary_round prec emax s m e = S754_finite s' m' e' ->
  Z.pos (digits2_pos m) + e <= Z.pos (digits2_pos m') + e'.
Proof.
  unfold binary_round.
  pose proof (shl_align_sum m e (fexp prec emax (Z.pos (digits2_pos m) + e))) as Hs.
  destruct (shl_align m e _) as [mz ez]. cbn [fst snd] in Hs.
  intros Hr. apply binary_round_aux_above in Hr; [|lia].
  cbn [Zdigits2] in Hr. lia.
Qed.

Lemma valid_binary_digits (s : bool) (m : positive) (e : Z) :
  valid_binary (S754_finite s m e) = true ->
  Z.pos (digits2_pos m) <= prec /\ e <= emax - prec.
Proof.
  cbn [SpecFloat.valid_binary]. unfold bounded, canonical_mantissa, fexp.
  intros H. apply andb_true_iff in H. destruct H as [H1 H2].
  apply Z.eqb_eq in H1. apply Z.leb_le in H2. lia.
Qed.

(** The difference of two positive numbers, when positive, is not short
    of the subtrahend by more than the 53 bits of the format. *)
Lemma SFsub_gap (mo : positive) (eo : Z) (mh : positive) (eh : Z)
      (mp : positive) (ep : Z) :
  Z.pos (digits2_pos mo) <= prec ->
  Z.pos (digits2_pos mh) <= prec ->
  SF64sub (S754_finite false mo eo) (S754_finite false mh eh)
  = S754_finite false mp ep ->
  Z.pos (digits2_pos mh) + eh <= Z.pos (digits2_pos mp) + ep + 52.
Proof.
  intros Hdo Hdh. unfold SF64sub, SFsub. cbn [cond_Zopp].
  set (ez := Z.min eo eh).
  pose proof (shl_align_digits mo eo ez ltac:(lia)) as Ho.
  pose proof (shl_align_digits mh eh ez ltac:(lia)) as Hh.
  set (mo' := fst (shl_align mo eo ez)) in *.
  set (mh' := fst (shl_align mh eh ez)) in *.
  destruct (Z.pos mo' - Z.pos mh') as [|d|d] eqn:Hd; cbn [binary_normalize].
  - discriminate.
  - intros Hr. apply binary_round_above in Hr.
    assert (Hlt : Z.pos mh' < Z.pos mo') by lia.
    pose proof (Zdigits2_mono (Z.pos mh') (Z.pos mo') ltac:(lia)) as Hmono.
    cbn [Zdigits2] in Hmono. unfold prec in *. lia.
  - intros Hr. pose proof (binary_round_sign true d ez) as Hs.
    rewrite Hr in Hs. discriminate.
Qed.

(** Dividing by a number at most 52 bits shorter stays below [2 ^ 54]. *)
Lemma SFdiv_below (sh : bool) (mh : positive) (eh : Z)
      (sp : bool) (mp : positive) (ep : Z) :
  Z.pos (digits2_pos mh) + eh <= Z.pos (digits2_pos mp) + ep + 52 ->
  below 54 (SF64div (S754_finite sh mh eh) (S754_finite sp mp ep)).
Proof.
  intros Hgap. unfold SF64div, SFdiv, SFdiv_core_binary. cbn [Zdigits2].
  set (dh := Z.pos (digits2_pos mh)) in *.
  set (dp := Z.pos (digits2_pos mp)) in *.
  set (e' := Z.min (fexp prec emax (dh + eh - (dp + ep))) (eh - ep)).
  set (m' := match eh - ep - e' with
             | 0 => Z.pos mh
             | Z.pos _ => Z.shiftl (Z.pos mh) (eh - ep - e')
             | Z.neg _ => 0
             end).
  assert (Hm' : m' = Z.pos mh * 2 ^ (eh - ep - e')).
  { unfold m'. destruct (eh - ep - e') as [|k|k] eqn:Hk; [| |lia].
    - now rewrite Z.mul_1_r.
    - now rewrite Z.shiftl_mul_pow2 by lia. }
  assert (Hdm' : Zdigits2 m' = dh + (eh - ep - e'))
    by (rewrite Hm'; apply (Zdigits2_shl (Z.pos mh)); lia).
  assert (Hm'0 : 0 < m') by (rewrite Hm'; apply Z.mul_pos_pos; [lia | apply Z.pow_pos_nonneg; lia]).
  pose proof (Zdigits2_div m' (Z.pos mp) ltac:(lia) ltac:(lia)) as Hq.
  pose proof (Z.div_pos m' (Z.pos mp) ltac:(lia) ltac:(lia)) as Hq0.
  unfold Z.div in Hq, Hq0.
  destruct (Z.div_eucl m' (Z.pos mp)) as [q r].
  change 54 with (53 + 1).
  apply binary_round_aux_below; try exact Hq0.
  - unfold e', fexp, SpecFloat.emin, emax, prec. lia.
  - cbn [Zdigits2] in Hq. fold dp in Hq. rewrite Hdm' in Hq.
    unfold e', fexp, SpecFloat.emin, emax, prec in *. lia.
  - unfold SpecFloat.emin, emax, prec. lia.
  - unfold emax. lia.
Qed.

(** A hundred times a number below [2 ^ 54] is finite. *)
Lemma SFmul_hundred_below (q : spec_float) :
  below 54 q -> below 62 (SF64mul q (Prim2SF 100)).
Proof.
  rewrite Prim2SF_hundred. unfold SF64mul, SFmul.
  destruct q as [s|s| |s m e]; cbn [below]; try tauto.
  intros [Hd He].
  change 62 with (61 + 1).
  apply binary_round_aux_below.
  - lia.
  - unfold emax, prec in *. lia.
  - change (Z.pos (m * 7036874417766400))
      with (Z.pos m * Z.pos 7036874417766400).
    pose proof (Zdigits2_mul (Z.pos m) (Z.pos 7036874417766400)
                             ltac:(lia) ltac:(lia)) as Hm.
    change (Zdigits2 (Z.pos 7036874417766400)) with 53 in Hm.
    change (Zdigits2 (Z.pos m)) with (Z.pos (digits2_pos m)) in Hm.
    lia.
  - unfold SpecFloat.emin, emax, prec. lia.
  - unfold emax. lia.
Qed.

End Percentage.

(** ** The hole percentage *)

Section HolePercent.

Import Core.
Open Scope float_scope.

Lemma is_infinity_spec (x : float) :
  is_infinity x = match Prim2SF x with S754_infinity _ => true | _ => false end.
Proof.
  unfold is_infinity.
  rewrite FloatAxioms.eqb_spec, abs_spec, Prim2SF_infinity.
  now destruct (Prim2SF x) as [s|s| |s m e].
Qed.

Lemma below_not_infinite (k : Z) (x : float) :
  below k (Prim2SF x) -> is_infinity x = false.
Proof.
  rewrite is_infinity_spec. now destruct (Prim2SF x).
Qed.



Lemma quotient_below (o h : float) :
  nan_or_sign false (Prim2SF o) ->
  nan_or_sign false (Prim2SF h) ->
  (o - h <=? 0) = false ->
  below 54 (Prim2SF (h / (o - h))).
Proof.
  intros Ho Hh Hle.
  rewrite FloatAxioms.leb_spec, Prim2SF_zero in Hle.
  pose proof (Prim2SF_valid o) as Vo. pose proof (Prim2SF_valid h) as Vh.
  rewrite div_spec. revert Hle. rewrite sub_spec.
  destruct (Prim2SF o) as [so|so| |so mo eo], (Prim2SF h) as [sh|sh| |sh mh eh];
    cbn [nan_or_sign] in Ho, Hh; subst;
    try (cbn; intros; (discriminate || exact I)).
  apply valid_binary_digits in Vo, Vh.
  destruct (SF64sub (S754_finite false mo eo) (S754_finite false mh eh))
    as [sp|sp| |sp mp ep] eqn:Hp; try (cbn; intros; (discriminate || exact I)).
  destruct sp; [cbn; discriminate|]. intros _.
  apply SFdiv_below. apply (SFsub_gap mo eo mh eh mp ep); tauto.
Qed.

Lemma percent_not_infinite (o h : float) :
  nan_or_sign false (Prim2SF o) ->
  nan_or_sign false (Prim2SF h) ->
  (o - h <=? 0) = false ->
  is_infinity (h / (o - h) * 100) = false.
Proof.
  intros Ho Hh Hle. apply below_not_infinite with (k := 62%Z).
  rewrite mul_spec. apply SFmul_hundred_below. now apply quotient_below.
Qed.


End HolePercent.

(** ** Integer coordinates *)

Section Integers.

Open Scope Z_scope.

Variable s : summation.











End Integers.

(** ** The rows of a document *)

Section Rows.

Open Scope Z_scope.

Variable s : summation.

















End Rows.

(** ** The rows of the example documents *)

Section RowsExamples.

Import Examples.
Open Scope Z_scope.



End RowsExamples.

(** * Further properties *)

(** ** Symmetries of [ring_area] *)

Section RingSymmetries.

Import Core.
Open Scope float_scope.

Lemma SFmul_comm (x y : spec_float) : SF64mul x y = SF64mul y x.
Proof.
  unfold SF64mul, SFmul.
  destruct x as [sx|sx| |sx mx ex], y as [sy|sy| |sy my ey]; cbv beta iota;
    rewrite ?(xorb_comm sy sx); try exact eq_refl.
  now rewrite Pos.mul_comm, Z.add_comm.
Qed.

Lemma SFmul_opp_l (x y : spec_float) :
  SF64mul (SFopp x) y = SFopp (SF64mul x y).
Proof.
  unfold SF64mul, SFmul.
  destruct x as [sx|sx| |sx mx ex], y as [sy|sy| |sy my ey];
    cbn [SFopp]; cbv beta iota;
    rewrite <- ?(negb_xorb_l sx sy); try exact eq_refl.
  apply binary_round_aux_opp.
Qed.

Lemma SFsub_opp (x y : spec_float) :
  same_value (SF64sub (SFopp x) (SFopp y)) (SFopp (SF64sub x y)).
Proof.
  unfold SF64sub, SFsub.
  destruct x as [sx|sx| |sx mx ex], y as [sy|sy| |sy my ey];
    try (now left); try (destruct sx, sy; simpl; (now left) || (now right)).
  cbn [SFopp]. rewrite !cond_Zopp_negb.
  match goal with
  | |- same_value (binary_normalize _ _ (- ?a - - ?b) _ _) _ =>
      replace (- a - - b)%Z with (- (a - b))%Z by lia
  end.
  apply binary_normalize_opp.
Qed.

Lemma SFadd_zero_r (x : spec_float) : same_value (SF64add x (S754_zero false)) x.
Proof. rewrite SFadd_comm. apply SFadd_zero_l. Qed.

(** Summands that are pairwise opposite, added in the same order, give
    opposite sums. *)
Lemma fold_add_opposite (ts ts' : list float) (a a' : float) :
  Forall2 (fun t t' => same_value (Prim2SF t') (SFopp (Prim2SF t))) ts ts' ->
  same_value (Prim2SF a') (SFopp (Prim2SF a)) ->
  same_value (Prim2SF (fold_left (fun acc t => acc + t) ts' a'))
             (SFopp (Prim2SF (fold_left (fun acc t => acc + t) ts a))).
Proof.
  intros Hts. revert a a'.
  induction Hts as [|t t' ts ts' Ht _ IH]; intros a a' Ha; [exact Ha|].
  cbn [fold_left]. apply IH. rewrite !add_spec.
  apply same_value_trans with (y := SF64add (SFopp (Prim2SF a)) (SFopp (Prim2SF t))).
  - now apply SFadd_same.
  - apply SFadd_opp.
Qed.

Lemma consecutive_pairs_map (f : vertex -> vertex) (r : ring) :
  Spec.consecutive_pairs (map f r)
  = map (fun p => (f (fst p), f (snd p))) (Spec.consecutive_pairs r).
Proof.
  unfold Spec.consecutive_pairs.
  assert (Hc : forall l1 l2 : list vertex,
             combine (map f l1) (map f l2)
             = map (fun p => (f (fst p), f (snd p))) (combine l1 l2)).
  { induction l1 as [|a l1 IH]; intros [|b l2]; cbn; try reflexivity.
    now rewrite IH. }
  rewrite <- Hc, map_app. f_equal. f_equal.
  - now destruct r.
  - now destruct r.
Qed.

(** A change of the vertices that turns every summand into its opposite
    leaves the area as it is. *)
Lemma ring_area_opposite_terms (f : vertex -> vertex) (r : ring) :
  (forall p : vertex * vertex,
      same_value (Prim2SF (Spec.cross (f (fst p), f (snd p))))
                 (SFopp (Prim2SF (Spec.cross p)))) ->
  ring_area (map f r) = ring_area r.
Proof.
  intros Hf. destruct r as [|v r]; [reflexivity|].
  cbn [map]. rewrite (ring_area_shoelace (f v) (map f r)), (ring_area_shoelace v r).
  apply half_abs_opp. unfold Spec.shoelace_sum.
  change (f v :: map f r) with (map f (v :: r)).
  rewrite consecutive_pairs_map.
  rewrite !(fold_left_add_map _ Spec.cross), map_map.
  apply fold_add_opposite; [|now right].
  induction (Spec.consecutive_pairs (v :: r)) as [|p ps IH]; constructor.
  - apply Hf.
  - exact IH.
Qed.

(** X1: exchanging the two coordinates of every vertex, [(y, x)] for
    [(x, y)], leaves [ring_area] unchanged, bit for bit, for every ring. *)
Theorem ring_area_swap_xy (r : ring) :
  ring_area (Change.swap_xy r) = ring_area r.
Proof.
  apply ring_area_opposite_terms.
  intros [[x1 y1] [x2 y2]]. cbn [fst snd Spec.cross].
  rewrite !sub_spec, !mul_spec.
  rewrite (SFmul_comm (Prim2SF y1)), (SFmul_comm (Prim2SF y2)).
  apply SFsub_swap.
Qed.

(** X2: mirroring a ring in the y axis, [(-x, y)] for [(x, y)], leaves
    [ring_area] unchanged, bit for bit, for every ring. *)
Theorem ring_area_mirror_x (r : ring) :
  ring_area (Change.mirror_x r) = ring_area r.
Proof.
  apply ring_area_opposite_terms.
  intros [[x1 y1] [x2 y2]]. cbn [fst snd Spec.cross].
  rewrite !sub_spec, !mul_spec, !opp_spec, !SFmul_opp_l.
  apply SFsub_opp.
Qed.

Lemma combine_snoc (A B : Type) (l1 : list A) (l2 : list B) (a : A) (b : B) :
  length l1 = length l2 ->
  combine (l1 ++ [a]) (l2 ++ [b]) = combine l1 l2 ++ [(a, b)].
Proof.
  revert l2; induction l1 as [|x l1 IH]; intros [|y l2] Hlen;
    try discriminate; [reflexivity|].
  cbn [app combine]. f_equal. apply IH. now injection Hlen.
Qed.

Lemma consecutive_pairs_closed (v : vertex) (rest : ring) :
  Spec.consecutive_pairs (Change.closed (v :: rest))
  = Spec.consecutive_pairs (v :: rest) ++ [(v, v)].
Proof.
  unfold Spec.consecutive_pairs, Change.closed. cbn [firstn tl app].
  change (v :: rest ++ [v]) with ((v :: rest) ++ [v]).
  apply combine_snoc. rewrite length_app. cbn [length]. lia.
Qed.

Lemma SFsub_diag_finite (x : spec_float) :
  match x with S754_zero _ | S754_finite _ _ _ => True | _ => False end ->
  SF64sub x x = S754_zero false.
Proof.
  destruct x as [[]|[]| |s m e]; simpl; try tauto; intros _.
  rewrite Z.sub_diag. reflexivity.
Qed.

(** X3: repeating the first vertex at the end of a ring, as a GeoJSON
    linear ring does, leaves [ring_area] unchanged, provided the product of
    the coordinates of that vertex is finite. *)
Theorem ring_area_closed (x y : float) (rest : ring) :
  is_finite (x * y) = true ->
  ring_area (Change.closed ((x, y) :: rest)) = ring_area ((x, y) :: rest).
Proof.
  intros Hfin.
  assert (Hsum : same_value
                   (Prim2SF (Spec.shoelace_sum (Change.closed ((x, y) :: rest))))
                   (Prim2SF (Spec.shoelace_sum ((x, y) :: rest)))).
  { unfold Spec.shoelace_sum.
    rewrite consecutive_pairs_closed, fold_left_app. cbn [fold_left Spec.cross].
    rewrite add_spec, sub_spec.
    rewrite is_finite_spec in Hfin.
    rewrite SFsub_diag_finite by (now destruct (Prim2SF (x * y))).
    apply SFadd_zero_r. }
  apply half_abs_same in Hsum.
  exact (eq_trans (ring_area_shoelace (x, y) (rest ++ [(x, y)]))
                  (eq_trans Hsum (eq_sym (ring_area_shoelace (x, y) rest)))).
Qed.

Lemma ring_area_closed_witness :
  is_finite (0 * 0) = true
  /\ ring_area (Change.closed Examples.square_ccw) = 16.
Proof.
  split; [reflexivity|].
  exact (ring_area_closed 0 0 [(4, 0); (4, 4); (0, 4)] eq_refl).
Defined.

End RingSymmetries.

(** ** Degenerate holes and NaN in [polygon_metrics] *)

Section MetricsEdges.

Import Core.
Open Scope float_scope.




Lemma binary_round_aux_not_nan (s : bool) (mx ex : Z) (lx : location) :
  (0 <= mx)%Z -> is_nan_sf (binary_round_aux prec emax s mx ex lx) = false.
Proof.
  intros Hmx.
  destruct (binary_round_aux_steps s mx ex lx Hmx)
    as (m1 & e1 & m2 & m3 & e3 & -> & _ & _ & Hm3 & _).
  destruct m3 as [|m|m]; [reflexivity| |lia].
  now destruct (Z.leb e3 _).
Qed.

Lemma binary_round_not_nan (s : bool) (m : positive) (e : Z) :
  is_nan_sf (binary_round prec emax s m e) = false.
Proof.
  unfold binary_round. destruct (shl_align m e _) as [mz ez].
  apply binary_round_aux_not_nan. lia.
Qed.

Lemma binary_normalize_not_nan (z e : Z) :
  is_nan_sf (binary_normalize prec emax z e false) = false.
Proof.
  destruct z; cbn [binary_normalize]; [reflexivity| |]; apply binary_round_not_nan.
Qed.

Lemma SFmul_finite_not_nan (sx : bool) (mx : positive) (ex : Z)
      (sy : bool) (my : positive) (ey : Z) :
  is_nan_sf (SF64mul (S754_finite sx mx ex) (S754_finite sy my ey)) = false.
Proof. apply binary_round_aux_not_nan. lia. Qed.

Lemma SFdiv_finite_not_nan (sx : bool) (mx : positive) (ex : Z)
      (sy : bool) (my : positive) (ey : Z) :
  is_nan_sf (SF64div (S754_finite sx mx ex) (S754_finite sy my ey)) = false.
Proof.
  unfold SF64div, SFdiv, SFdiv_core_binary.
  set (m' := match (ex - ey - _)%Z with
             | 0%Z => Z.pos mx
             | Z.pos _ => Z.shiftl (Z.pos mx) _
             | Z.neg _ => 0%Z
             end).
  assert (Hm' : (0 <= m')%Z).
  { unfold m'. destruct (ex - ey - _)%Z; try lia. apply Z.shiftl_nonneg. lia. }
  pose proof (Z.div_pos m' (Z.pos my) Hm' ltac:(lia)) as Hq.
  unfold Z.div in Hq. destruct (Z.div_eucl m' (Z.pos my)) as [q r].
  now apply binary_round_aux_not_nan.
Qed.

Lemma SFsub_finite_not_nan (sx : bool) (mx : positive) (ex : Z)
      (sy : bool) (my : positive) (ey : Z) :
  is_nan_sf (SF64sub (S754_finite sx mx ex) (S754_finite sy my ey)) = false.
Proof. apply binary_normalize_not_nan. Qed.

Lemma SFadd_finite_not_nan (sx : bool) (mx : positive) (ex : Z)
      (sy : bool) (my : positive) (ey : Z) :
  is_nan_sf (SF64add (S754_finite sx mx ex) (S754_finite sy my ey)) = false.
Proof. apply binary_normalize_not_nan. Qed.

(** Among values with a clear sign bit, a sum is NaN only if a summand is. *)
Lemma add_nan (a x : float) :
  nan_or_sign false (Prim2SF a) ->
  nan_or_sign false (Prim2SF x) ->
  is_nan (a + x) = is_nan a || is_nan x.
Proof.
  rewrite !is_nan_spec, add_spec. intros Ha Hx.
  destruct (Prim2SF a) as [sa|sa| |sa ma ea], (Prim2SF x) as [sx|sx| |sx mx ex];
    cbn [nan_or_sign] in Ha, Hx; subst; try reflexivity.
  apply (SFadd_finite_not_nan false ma ea false mx ex).
Qed.

Lemma py_sum_nan (holes : list ring) (a : float) :
  nan_or_sign false (Prim2SF a) ->
  is_nan (fold_left (fun acc x => acc + x) (map ring_area holes) a)
  = is_nan a || existsb (fun r => is_nan (ring_area r)) holes.
Proof.
  revert a; induction holes as [|r holes IH]; intros a Ha; cbn [map fold_left existsb].
  - now rewrite orb_false_r.
  - pose proof (ring_area_sign r) as Hr.
    rewrite IH by (rewrite add_spec; now apply SFadd_sign).
    rewrite (add_nan a (ring_area r) Ha Hr). now rewrite orb_assoc.
Qed.

(** Among values with a clear sign bit, a difference is NaN only if a term
    is, or both are infinite. *)
Lemma sub_nan (o h : float) :
  nan_or_sign false (Prim2SF o) ->
  nan_or_sign false (Prim2SF h) ->
  is_nan (o - h) = is_nan o || is_nan h || (is_infinity o && is_infinity h).
Proof.
  rewrite !is_nan_spec, !is_infinity_spec, sub_spec. intros Ho Hh.
  destruct (Prim2SF o) as [so|so| |so mo eo], (Prim2SF h) as [sh|sh| |sh mh eh];
    cbn [nan_or_sign] in Ho, Hh; subst; try reflexivity.
  apply (SFsub_finite_not_nan false mo eo false mh eh).
Qed.

(** The percentage is NaN exactly when the polygon area is. *)
Lemma percent_nan (o h : float) :
  nan_or_sign false (Prim2SF o) ->
  nan_or_sign false (Prim2SF h) ->
  (o - h <=? 0) = false ->
  is_nan (h / (o - h) * 100) = is_nan (o - h).
Proof.
  intros Ho Hh Hle.
  rewrite FloatAxioms.leb_spec, Prim2SF_zero in Hle.
  rewrite !is_nan_spec, mul_spec, div_spec, Prim2SF_hundred.
  revert Hle. rewrite sub_spec.
  destruct (Prim2SF o) as [so|so| |so mo eo], (Prim2SF h) as [sh|sh| |sh mh eh];
    cbn [nan_or_sign] in Ho, Hh; subst;
    try (cbn; intros; (discriminate || reflexivity)).
  pose proof (SFsub_finite_not_nan false mo eo false mh eh) as Hp.
  destruct (SF64sub (S754_finite false mo eo) (S754_finite false mh eh))
    as [sp|sp| |sp mp ep]; try (cbn; intros; (discriminate || reflexivity)).
  intros _.
  pose proof (SFdiv_finite_not_nan false mh eh sp mp ep) as Hq.
  destruct (SF64div (S754_finite false mh eh) (S754_finite sp mp ep))
    as [sq|sq| |sq mq eq]; try discriminate; try reflexivity.
  apply (SFmul_finite_not_nan sq mq eq false 7036874417766400 (-46)).
Qed.

Lemma hole_percent_nan_inf (rings : list ring) (polygon_area hole_area hole_pct : float) :
  polygon_metrics rings = Returns (polygon_area, hole_area, hole_pct) ->
  is_nan hole_pct = is_nan polygon_area /\ is_infinity hole_pct = false.
Proof.
  intros Hm. destruct rings as [|outer holes].
  - injection Hm as <- <- <-. now split.
  - rewrite polygon_metrics_cons in Hm. injection Hm as <- <- <-.
    unfold Spec.hole_percent, Spec.polygon_area, Spec.outer_area, Spec.hole_area.
    cbn [nth skipn].
    pose proof (ring_area_sign outer) as Ho.
    pose proof (hole_area_sign holes) as Hh.
    destruct (ring_area outer - py_sum (map ring_area holes) <=? 0) eqn:Hle.
    + split; [|reflexivity].
      rewrite FloatAxioms.leb_spec in Hle. rewrite (is_nan_spec (_ - _)).
      now destruct (Prim2SF (ring_area outer - py_sum (map ring_area holes))).
    + split; [now apply percent_nan | now apply percent_not_infinite].
Qed.

(** X5: the hole percentage [polygon_metrics] returns is a finite number
    exactly when the polygon area it returns is not NaN; with a NaN polygon
    area the percentage is NaN too. *)
Theorem hole_percent_finite (rings : list ring) (polygon_area hole_area hole_pct : float) :
  polygon_metrics rings = Returns (polygon_area, hole_area, hole_pct) ->
  is_nan hole_pct = is_nan polygon_area
  /\ is_finite hole_pct = negb (is_nan polygon_area).
Proof.
  intros Hm.
  destruct (hole_percent_nan_inf rings polygon_area hole_area hole_pct Hm) as [Hn Hi].
  split; [exact Hn|].
  unfold is_finite. now rewrite Hn, Hi, orb_false_r.
Qed.

Lemma hole_percent_finite_witness :
  polygon_metrics Examples.holed_square = Returns (96, 4, 0x1.0aaaaaaaaaaaap+2)
  /\ is_finite 0x1.0aaaaaaaaaaaap+2 = negb (is_nan 96).
Proof.
  split; [reflexivity|].
  exact (proj2 (hole_percent_finite Examples.holed_square 96 4
                                    0x1.0aaaaaaaaaaaap+2 eq_refl)).
Defined.

(** X6: the polygon area [polygon_metrics] returns is NaN exactly when the
    area of one of the rings is NaN, or the outer area and the hole area are
    both infinite. *)
Theorem polygon_area_nan (outer : ring) (holes : list ring)
        (polygon_area hole_area hole_pct : float) :
  polygon_metrics (outer :: holes) = Returns (polygon_area, hole_area, hole_pct) ->
  is_nan polygon_area
  = existsb (fun r => is_nan (ring_area r)) (outer :: holes)
    || (is_infinity (ring_area outer) && is_infinity hole_area).
Proof.
  rewrite polygon_metrics_cons. intros Hm. injection Hm as <- <- _.
  unfold Spec.polygon_area, Spec.outer_area, Spec.hole_area. cbn [nth skipn existsb].
  rewrite (sub_nan _ _ (ring_area_sign outer) (hole_area_sign holes)).
  unfold py_sum at 1. rewrite (py_sum_nan holes 0 eq_refl).
  reflexivity.
Qed.

Lemma polygon_area_nan_witness :
  polygon_metrics Examples.holed_square = Returns (96, 4, 0x1.0aaaaaaaaaaaap+2)
  /\ is_nan 96
     = existsb (fun r => is_nan (ring_area r)) Examples.holed_square
       || (is_infinity (ring_area [(0, 0); (10, 0); (10, 10); (0, 10)])
           && is_infinity 4).
Proof.
  split; [reflexivity|].
  exact (polygon_area_nan [(0, 0); (10, 0); (10, 10); (0, 10)]
                          [[(1, 1); (3, 1); (3, 3); (1, 3)]]
                          96 4 0x1.0aaaaaaaaaaaap+2 eq_refl).
Defined.

End MetricsEdges.

(** ** Composition of the traversal *)

Section TraversalComposition.

Open Scope Z_scope.

Variable s : summation.

Lemma renumber_yield (k index : Z) (m : float * number * float) :
  renumber k (yield index m) = yield (index + k) m.
Proof. now destruct m as [[a h] p]. Qed.

Lemma each_polygon_later (polys : list json) (index k : Z) :
  each_polygon s (index + k) polys = later k (each_polygon s index polys).
Proof.
  revert index; induction polys as [|poly rest IH]; intros index;
    cbn [each_polygon]; [reflexivity|].
  replace (index + k + 1) with (index + 1 + k) by lia.
  destruct (polygon_metrics_of s poly) as [m|]; [|reflexivity].
  rewrite IH. destruct (each_polygon s (index + 1) rest) as [[i items] e].
  cbn [later map]. now rewrite renumber_yield.
Qed.

Lemma feature_later (feat : json) (index k : Z) :
  feature s (index + k) feat = later k (feature s index feat).
Proof.
  unfold feature.
  destruct (geom <- Py.get feat "geometry" (JObj []) ;; _) as [[gtype coords]|];
    [|reflexivity].
  destruct (Py.eq_str gtype "Polygon").
  - replace (index + k + 1) with (index + 1 + k) by lia.
    destruct (polygon_metrics_of s coords) as [m|]; [|reflexivity].
    cbn [later map]. now rewrite renumber_yield.
  - destruct (Py.eq_str gtype "MultiPolygon"); [|reflexivity].
    destruct (Py.iter coords) as [polys|]; [|reflexivity].
    apply each_polygon_later.
Qed.

Lemma each_feature_later (features : list json) (index k : Z) :
  each_feature s (index + k) features = later k (each_feature s index features).
Proof.
  revert index; induction features as [|feat rest IH]; intros index;
    cbn [each_feature]; [reflexivity|].
  rewrite feature_later.
  destruct (feature s index feat) as [[i items] [|]]; cbn [later]; [|reflexivity].
  rewrite IH. destruct (each_feature s i rest) as [[i' items'] e].
  cbn [later]. now rewrite map_app.
Qed.

Lemma each_feature_app (before after : list json) (index : Z) :
  each_feature s index (before ++ after)
  = match each_feature s index before with
    | (index', items, Raised) => (index', items, Raised)
    | (index', items, Exhausted) =>
        let '(index'', items', e) := each_feature s index' after in
        (index'', items ++ items', e)
    end.
Proof.
  revert index; induction before as [|feat rest IH]; intros index;
    cbn [app each_feature].
  - now destruct (each_feature s index after) as [[i items] e].
  - destruct (feature s index feat) as [[i items] [|]]; [|reflexivity].
    rewrite IH.
    destruct (each_feature s i rest) as [[i' items'] [|]]; [|reflexivity].
    destruct (each_feature s i' after) as [[i'' items''] e].
    now rewrite app_assoc.
Qed.

(** X7: a feature that raises ends the traversal: whatever follows it in
    the collection is not processed, and the items yielded before it
    stand. *)
Theorem raise_ends_traversal (before after : list json) :
  snd (process_document s (Spec.feature_collection before)) = Raised ->
  process_document s (Spec.feature_collection (before ++ after))
  = process_document s (Spec.feature_collection before).
Proof.
  rewrite !process_collection, each_feature_app.
  destruct (each_feature s 0 before) as [[i items] [|]]; [discriminate | reflexivity].
Qed.

(** X8: a collection holding the features of two collections one after the
    other yields, where the first runs to its end, the items of the first
    followed by those of the second, the indices of the second moved on by
    the number of items of the first; it ends as the second does. *)
Theorem traversal_of_concatenation (first second : list json) :
  snd (process_document s (Spec.feature_collection first)) = Exhausted ->
  process_document s (Spec.feature_collection (first ++ second))
  = (fst (process_document s (Spec.feature_collection first))
     ++ map (renumber
               (Z.of_nat (length (fst (process_document s
                                         (Spec.feature_collection first))))))
            (fst (process_document s (Spec.feature_collection second))),
     snd (process_document s (Spec.feature_collection second))).
Proof.
  rewrite !process_collection, each_feature_app. cbn [fst snd].
  destruct (each_feature_counts s first 0) as [[_ Hend] _].
  destruct (each_feature s 0 first) as [[i items] e].
  unfold run_items, run_ending in *. cbn [fst snd] in *.
  intros ->. rewrite (Hend eq_refl).
  rewrite each_feature_later.
  destruct (each_feature s 0 second) as [[i' items'] e']. reflexivity.
Qed.

End TraversalComposition.

Section TraversalCompositionExamples.

Open Scope Z_scope.

Lemma raise_ends_traversal_witness :
  snd (process_document Plain
         (Spec.feature_collection
            [Spec.polygon_feature [Examples.square_ccw]; Examples.raised_triangle]))
  = Raised
  /\ process_document Plain
       (Spec.feature_collection
          ([Spec.polygon_feature [Examples.square_ccw]; Examples.raised_triangle]
           ++ [Spec.polygon_feature [Examples.triangle]]))
     = ([(1, 16%float, Int 0, 0%float)], Raised).
Proof.
  split; [reflexivity|].
  rewrite raise_ends_traversal; reflexivity.
Defined.

Lemma traversal_of_concatenation_witness :
  snd (process_document Plain
         (Spec.feature_collection [Spec.polygon_feature [Examples.square_ccw]]))
  = Exhausted
  /\ fst (process_document Plain
            (Spec.feature_collection
               ([Spec.polygon_feature [Examples.square_ccw]]
                ++ [Spec.polygon_feature [Examples.triangle]])))
     = [(1, 16%float, Int 0, 0%float); (2, 6%float, Int 0, 0%float)].
Proof.
  split; [reflexivity|].
  rewrite traversal_of_concatenation; reflexivity.
Defined.

End TraversalCompositionExamples.

(** ** What the traversal reads of a document *)

Section DocumentShape.

Open Scope Z_scope.

Variable s : summation.

(** X9: a document that is not a feature collection is processed as the
    collection of that one document. *)
Theorem single_feature_document (feat : json) :
  Py.eq_str (Spec.member feat "type" JNull) "FeatureCollection" = false ->
  process_document s feat = process_document s (Spec.feature_collection [feat]).
Proof.
  intros Ht. rewrite process_collection. cbn [each_feature].
  destruct feat as [| | | | | |members]; try reflexivity.
  unfold process_document. rewrite get_member. cbn [bind]. rewrite Ht.
  cbn [bind Py.iter each_feature].
  destruct (feature s 0 (JObj members)) as [[i items] [|]]; [|reflexivity].
  cbn. now rewrite app_nil_r.
Qed.

(** X10: a [Polygon] geometry whose coordinates are missing, empty, null or
    otherwise false still advances the counter and yields a row of zeros; a
    [MultiPolygon] geometry without a coordinates member yields nothing. *)
Theorem missing_coordinates (index : Z) (members geom : list (string * json)) :
  Py.dict_get members "geometry" = Some (JObj geom) ->
  (Py.dict_get geom "type" = Some (JStr "Polygon") ->
   Py.truthy (Spec.member (JObj geom) "coordinates" (JArr [])) = false ->
   feature s index (JObj members)
   = (index + 1, [(index + 1, 0%float, Float 0, 0%float)], Exhausted))
  /\ (Py.dict_get geom "type" = Some (JStr "MultiPolygon") ->
      Py.dict_get geom "coordinates" = None ->
      feature s index (JObj members) = (index, [], Exhausted)).
Proof.
  intros Hg. unfold feature. cbn [Py.get bind]. rewrite Hg. cbn [Py.get bind].
  split.
  - intros Ht Hc. rewrite Ht. cbn [Py.eq_str String.eqb Ascii.eqb Bool.eqb].
    unfold Spec.member in Hc. unfold polygon_metrics_of, Py.rings_of.
    rewrite Hc. reflexivity.
  - intros Ht Hc. rewrite Ht, Hc. reflexivity.
Qed.

(** X11: of a feature collection only the [features] member is read, and of
    a feature only the type and the coordinates of its geometry: any other
    member, such as properties, an id or a bounding box, changes nothing. *)
Theorem other_members_ignored :
  (forall (members : list (string * json)) (features : list json),
      Py.dict_get members "type" = Some (JStr "FeatureCollection") ->
      Spec.member (JObj members) "features" (JArr []) = JArr features ->
      process_document s (JObj members)
      = process_document s (Spec.feature_collection features))
  /\ (forall (index : Z) (members geom : list (string * json)),
         Py.dict_get members "geometry" = Some (JObj geom) ->
         feature s index (JObj members)
         = feature s index
             (JObj [("geometry",
                     JObj [("type", Spec.member (JObj geom) "type" JNull);
                           ("coordinates",
                            Spec.member (JObj geom) "coordinates" (JArr []))])]%string)).
Proof.
  split.
  - intros members features Ht Hf. rewrite process_collection.
    unfold process_document. rewrite !get_member. cbn [bind].
    unfold Spec.member at 1. rewrite Ht.
    cbn [Py.eq_str String.eqb Ascii.eqb Bool.eqb].
    rewrite Hf. cbn [bind Py.iter].
    now destruct (each_feature s 0 features) as [[i items] e].
  - intros index members geom Hg. unfold feature.
    cbn [Py.get bind]. rewrite Hg. reflexivity.
Qed.

End DocumentShape.

Section DocumentShapeExamples.

Open Scope Z_scope.

Lemma single_feature_document_witness :
  Py.eq_str (Spec.member (Spec.polygon_feature [Examples.square_ccw]) "type" JNull)
            "FeatureCollection" = false
  /\ process_document Plain (Spec.polygon_feature [Examples.square_ccw])
     = ([(1, 16%float, Int 0, 0%float)], Exhausted).
Proof.
  split; [reflexivity|].
  rewrite single_feature_document; reflexivity.
Defined.

Lemma missing_coordinates_witness :
  feature Plain 4 (JObj [("geometry", JObj [("type", JStr "Polygon")])]%string)
  = (5, [(5, 0%float, Float 0, 0%float)], Exhausted)
  /\ feature Plain 4 (JObj [("geometry", JObj [("type", JStr "Polygon");
                                         ("coordinates", JNull)])]%string)
     = (5, [(5, 0%float, Float 0, 0%float)], Exhausted)
  /\ feature Plain 4 (JObj [("geometry", JObj [("type", JStr "MultiPolygon")])]%string)
     = (4, [], Exhausted).
Proof.
  split; [|split].
  - apply (missing_coordinates Plain
             4 [("geometry", JObj [("type", JStr "Polygon")])]%string
             [("type", JStr "Polygon")]%string eq_refl); reflexivity.
  - apply (missing_coordinates Plain
             4 [("geometry", JObj [("type", JStr "Polygon");
                                   ("coordinates", JNull)])]%string
             [("type", JStr "Polygon"); ("coordinates", JNull)]%string eq_refl);
      reflexivity.
  - apply (missing_coordinates Plain
             4 [("geometry", JObj [("type", JStr "MultiPolygon")])]%string
             [("type", JStr "MultiPolygon")]%string eq_refl); reflexivity.
Defined.

Lemma other_members_ignored_witness :
  process_document Plain
    (JObj [("name", JStr "parcels"); ("type", JStr "FeatureCollection");
           ("bbox", JArr []);
           ("features", JArr [Spec.polygon_feature [Examples.square_ccw]])]%string)
  = ([(1, 16%float, Int 0, 0%float)], Exhausted)
  /\ feature Plain 0 (JObj [("id", JNum 7); ("geometry", JObj [("type", JStr "Point")]);
                      ("properties", JNull)]%string)
     = (0, [], Exhausted).
Proof.
  destruct (other_members_ignored Plain) as [Hc Hf]. split.
  - rewrite (Hc _ [Spec.polygon_feature [Examples.square_ccw]]); reflexivity.
  - rewrite (Hf 0 _ [("type", JStr "Point")]%string); reflexivity.
Defined.

End DocumentShapeExamples.

(** ** The run as a whole *)

Section RunProperties.

Variable s : summation.
Variable json_load : string -> result json.
Variable path_join : string -> string -> string.
Variable write_row : report_row -> result string.


Lemma process_geojson_indices (fs : filesystem) (path : string) :
  map item_index (fst (process_geojson s json_load fs path))
  = Spec.indices (length (fst (process_geojson s json_load fs path))).
Proof.
  unfold process_geojson. destruct (loaded json_load fs path) as [data|].
  - apply process_document_counts.
  - reflexivity.
Qed.

(** X13: in a written report every row carries the name of its file as
    listed, and the feature indices start again at 1 in every file: the rows
    of a file are numbered 1, 2, ... in order. *)
Theorem report_numbering (fs : filesystem) (folder output : string) (table : report) :
  main s json_load path_join write_row fs folder output = Returns table ->
  exists filenames : list string,
    listdir fs folder = Returns filenames
    /\ map (fun r => (file r, feature_index r)) (rows table)
       = flat_map
           (fun f => map (pair f)
                         (Spec.indices
                            (length (fst (process_geojson s json_load fs
                                                          (path_join folder f))))))
           (filter selected filenames).
Proof.
  intros Hm. apply (main_returns_inv s json_load path_join write_row) in Hm.
  destruct Hm as [filenames [rs [Hls [Hc [_ [_ ->]]]]]].
  exists filenames. split; [exact Hls|]. cbn [rows].
  rewrite (collect_rows s json_load path_join fs folder filenames rs Hc).
  induction (filter selected filenames) as [|f fs' IH]; [reflexivity|].
  cbn [flat_map]. rewrite map_app, IH. f_equal.
  rewrite map_map, <- process_geojson_indices, map_map.
  apply map_ext. now intros [[[index a] h] p].
Qed.

(** X21: a row that cannot be written ends the run after the output was
    opened: [main] raises, and the output file is left with the header line
    and the lines of the rows before that row. *)
Theorem unwritable_row (fs : filesystem) (folder output : string)
        (filenames lines : list string) (before after : list report_row)
        (row : report_row) :
  listdir fs folder = Returns filenames ->
  collect s json_load path_join fs folder filenames = Returns (before ++ row :: after) ->
  writable fs output = true ->
  Py.all write_row before = Returns lines ->
  write_row row = Raises ->
  main s json_load path_join write_row fs folder output = Raises
  /\ output_file s json_load path_join write_row fs folder output
     = Some (header_line ++ String.concat EmptyString lines)%string.
Proof.
  intros Hls Hc Hw Hlines Hrow.
  assert (Hwr : write_rows write_row (before ++ row :: after)
                = (String.concat EmptyString lines, Raised)).
  { clear Hc. revert lines Hlines.
    induction before as [|r before IH]; intros lines; cbn [Py.all app write_rows].
    - intros [= <-]. now rewrite Hrow.
    - destruct (write_row r) as [line|]; [|discriminate]. cbn [bind].
      destruct (Py.all write_row before) as [more|]; [|discriminate]. cbn [bind].
      intros [= <-]. rewrite (IH more eq_refl). now rewrite concat_cons. }
  unfold main, output_file. rewrite Hls. cbn [bind]. rewrite Hc. cbn [bind].
  rewrite Hw, Hwr. now split.
Qed.

End RunProperties.

(** ** The run on the example folders *)

Section RunExamples.

Import Examples.


Lemma report_numbering_witness :
  exists filenames : list string,
    listdir lots_folder "data" = Returns filenames
    /\ [("b.geojson"%string, 1%Z); ("b.geojson"%string, 2%Z);
        ("b.geojson"%string, 3%Z); ("A.JSON"%string, 1%Z)]
       = flat_map
           (fun f => map (pair f)
                         (Spec.indices
                            (length (fst (process_geojson Plain load lots_folder
                                                          (join "data" f))))))
           (filter selected filenames).
Proof.
  exact (report_numbering Plain load join write lots_folder "data" "hole_report.csv"
                          {| fieldnames := header;
                             rows := [row_of "b.geojson" (1%Z, 16%float, Int 0, 0%float);
                                      row_of "b.geojson" (2%Z, 6%float, Int 0, 0%float);
                                      row_of "b.geojson"
                                             (3%Z, 96%float, Float 4,
                                              0x1.0aaaaaaaaaaaap+2%float);
                                      row_of "A.JSON" (1%Z, 16%float, Int 0, 0%float)] |}
                          eq_refl).
Defined.

Lemma unwritable_row_witness :
  main Plain load join write unencodable_folder "data" "hole_report.csv" = Raises
  /\ output_file Plain load join write unencodable_folder "data" "hole_report.csv"
     = Some header_line.
Proof.
  apply (unwritable_row Plain load join write unencodable_folder "data" "hole_report.csv"
                        [String (ascii_of_nat 255) ".json"] [] [] []
                        (row_of (String (ascii_of_nat 255) ".json")
                                (1%Z, 16%float, Int 0, 0%float)))%string;
    reflexivity.
Defined.

End RunExamples.

(** ** The selection of files *)

Section Selection.

Open Scope string_scope.










End Selection.

(** ** NaN coordinates *)

Section NanCoordinates.

Import Core.
Open Scope float_scope.

Lemma add_nan_r (a x : float) : is_nan x = true -> is_nan (a + x) = true.
Proof.
  rewrite !is_nan_spec, add_spec.
  destruct (Prim2SF x); try discriminate. intros _.
  now destruct (Prim2SF a) as [[]|[]| |s m e].
Qed.

Lemma add_nan_l (a x : float) : is_nan a = true -> is_nan (a + x) = true.
Proof.
  rewrite !is_nan_spec, add_spec.
  destruct (Prim2SF a); try discriminate. reflexivity.
Qed.

Lemma sub_nan_l (a b : float) : is_nan a = true -> is_nan (a - b) = true.
Proof.
  rewrite !is_nan_spec, sub_spec.
  destruct (Prim2SF a); try discriminate. reflexivity.
Qed.

Lemma sub_nan_r (a b : float) : is_nan b = true -> is_nan (a - b) = true.
Proof.
  rewrite !is_nan_spec, sub_spec.
  destruct (Prim2SF b); try discriminate. intros _.
  now destruct (Prim2SF a) as [[]|[]| |s m e].
Qed.

Lemma mul_nan_l (a b : float) : is_nan a = true -> is_nan (a * b) = true.
Proof.
  rewrite !is_nan_spec, mul_spec.
  destruct (Prim2SF a); try discriminate. reflexivity.
Qed.

Lemma mul_nan_r (a b : float) : is_nan b = true -> is_nan (a * b) = true.
Proof.
  rewrite !is_nan_spec, mul_spec.
  destruct (Prim2SF b); try discriminate. intros _.
  now destruct (Prim2SF a) as [[]|[]| |s m e].
Qed.

Lemma half_abs_nan (a : float) : is_nan a = true -> is_nan (abs a / 2) = true.
Proof.
  rewrite !is_nan_spec, div_spec, abs_spec.
  destruct (Prim2SF a); try discriminate. reflexivity.
Qed.

Lemma fold_add_nan (ts : list float) (a : float) :
  is_nan a = true \/ Exists (fun t => is_nan t = true) ts ->
  is_nan (fold_left (fun acc t => acc + t) ts a) = true.
Proof.
  revert a; induction ts as [|t ts IH]; intros a [Ha|Hex]; cbn [fold_left].
  - exact Ha.
  - inversion Hex.
  - apply IH. left. now apply add_nan_l.
  - apply IH. inversion Hex as [? ? Ht|? ? Hts]; subst.
    + left. now apply add_nan_r.
    + now right.
Qed.

(** X15: a NaN coordinate is never lost: a ring with a vertex of which a
    coordinate is NaN has area NaN. *)
Theorem ring_area_nan_coordinate (r : ring) (x y : float) :
  In (x, y) r ->
  is_nan x = true \/ is_nan y = true ->
  is_nan (ring_area r) = true.
Proof.
  intros Hin Hnan.
  destruct r as [|v r]; [contradiction|].
  unfold ring_area. apply half_abs_nan.
  rewrite fold_left_add_map. apply fold_add_nan. right.
  apply In_nth with (d := (0, 0)) in Hin. destruct Hin as [i [Hi Hnth]].
  apply Exists_exists. exists (shoelace_term (v :: r) i). split.
  - apply in_map, in_seq. split; [apply Nat.le_0_l | exact Hi].
  - unfold shoelace_term. unfold ring, vertex in *. rewrite Hnth.
    destruct (nth ((i + 1) mod length (v :: r)) (v :: r) (0, 0)) as [x2 y2].
    destruct Hnan as [Hx|Hy].
    + apply sub_nan_l. now apply mul_nan_l.
    + apply sub_nan_r. now apply mul_nan_r.
Qed.

Lemma ring_area_nan_coordinate_witness :
  In (4, nan) [(0, 0); (4, nan); (0, 3)]
  /\ is_nan (ring_area [(0, 0); (4, nan); (0, 3)]) = true.
Proof.
  split; [right; left; reflexivity|].
  apply (ring_area_nan_coordinate _ 4 nan); [right; left; reflexivity|].
  right. reflexivity.
Defined.

End NanCoordinates.

(** ** Multipolygons and folders without selected files *)

Section Multipolygons.

Open Scope Z_scope.

Variable s : summation.

Lemma feature_polygon_json (rings : list Core.ring) (index : Z) :
  feature s index (Spec.polygon_feature rings)
  = (index + 1, [yield (index + 1) (Spec.values s rings)], Exhausted).
Proof.
  unfold feature, Spec.polygon_feature.
  cbn [Py.get Py.dict_get fold_left fst snd String.eqb Ascii.eqb Bool.eqb bind
       Py.eq_str].
  now rewrite polygon_metrics_of_json.
Qed.

Lemma feature_multipolygon_json (polys : list (list Core.ring)) (index : Z) :
  feature s index (Spec.multipolygon_feature polys)
  = each_polygon s index (map Spec.json_of_rings polys).
Proof. reflexivity. Qed.

Lemma each_feature_polygons (polys : list (list Core.ring)) (rest : list json)
      (index : Z) :
  each_feature s index (map Spec.polygon_feature polys ++ rest)
  = match each_polygon s index (map Spec.json_of_rings polys) with
    | (index', items, Raised) => (index', items, Raised)
    | (index', items, Exhausted) =>
        let '(index'', items', e) := each_feature s index' rest in
        (index'', items ++ items', e)
    end.
Proof.
  revert index; induction polys as [|rings polys IH]; intros index;
    cbn [map app each_feature each_polygon].
  - now destruct (each_feature s index rest) as [[i items] e].
  - rewrite feature_polygon_json, polygon_metrics_of_json, IH.
    destruct (each_polygon s (index + 1) (map Spec.json_of_rings polys))
      as [[i items] [|]]; [|reflexivity].
    now destruct (each_feature s i rest) as [[i' items'] e].
Qed.

(** X16: a [MultiPolygon] feature counts as its polygons: replacing it, at
    its place in the collection, by one [Polygon] feature for each of its
    polygons leaves the items yielded, indices included, as they were. *)
Theorem multipolygon_as_polygons (before after : list json)
        (polys : list (list Core.ring)) :
  process_document s
    (Spec.feature_collection (before ++ Spec.multipolygon_feature polys :: after))
  = process_document s
      (Spec.feature_collection (before ++ map Spec.polygon_feature polys ++ after)).
Proof.
  rewrite !process_collection, !each_feature_app.
  destruct (each_feature s 0 before) as [[i items] [|]]; [|reflexivity].
  rewrite each_feature_polygons. cbn [each_feature].
  now rewrite feature_multipolygon_json.
Qed.

End Multipolygons.

Section EmptyFolder.

Variable s : summation.
Variable json_load : string -> result json.
Variable path_join : string -> string -> string.
Variable write_row : report_row -> result string.

Lemma collect_none_selected (fs : filesystem) (folder : string)
      (filenames : list string) :
  filter selected filenames = [] ->
  collect s json_load path_join fs folder filenames = Returns [].
Proof.
  induction filenames as [|g rest IH]; [reflexivity|].
  cbn [filter collect]. destruct (selected g); [discriminate | exact IH].
Qed.

(** X17: a folder that holds no selected file, an empty folder included,
    is no error: where the output can be written, the report has the five
    column names and no row, and no file of the folder is read. *)
Theorem main_nothing_selected (fs : filesystem) (folder output : string)
        (filenames : list string) :
  listdir fs folder = Returns filenames ->
  filter selected filenames = [] ->
  writable fs output = true ->
  main s json_load path_join write_row fs folder output
  = Returns {| fieldnames := ["file"; "feature_index"; "polygon_area";
                              "hole_area"; "hole_percent"]%string;
               rows := [] |}.
Proof.
  intros Hls Hnone Hw. unfold main. rewrite Hls. cbn [bind].
  rewrite (collect_none_selected fs folder filenames Hnone). cbn [bind].
  now rewrite Hw.
Qed.

End EmptyFolder.

Section EmptyFolderExample.

Import Examples.

Lemma main_nothing_selected_witness :
  main Plain load join write (folder_of [("notes.txt", "x")]%string) "data"
       "hole_report.csv"
  = Returns {| fieldnames := header; rows := [] |}.
Proof.
  apply (main_nothing_selected Plain load join write
                               (folder_of [("notes.txt", "x")]%string)
                               "data" "hole_report.csv" ["notes.txt"]%string);
    reflexivity.
Defined.

End EmptyFolderExample.

(** ** Finite areas give finite metrics *)

Section FiniteMetrics.

Open Scope Z_scope.

Lemma iter_xO_value (m d : positive) :
  Z.pos (Pos.iter xO m d) = Z.pos m * 2 ^ Z.pos d.
Proof.
  induction d as [|d IH] using Pos.peano_ind.
  - cbn [Pos.iter]. lia.
  - rewrite Pos.iter_succ, Pos2Z.inj_succ, Z.pow_succ_r by lia.
    rewrite Pos2Z.inj_xO, IH. lia.
Qed.

Lemma shl_align_value (m : positive) (e e' : Z) :
  e' <= e -> Z.pos (fst (shl_align m e e')) = Z.pos m * 2 ^ (e - e').
Proof.
  intros He. unfold shl_align.
  destruct (e' - e) as [|d|d] eqn:Hd; cbn [fst]; try lia.
  - replace (e - e') with 0 by lia. lia.
  - rewrite iter_xO_value. f_equal. f_equal. lia.
Qed.

(** Rounding at the top of the range: a number of 1024 bits that lies
    under a mantissa of 53 bits at the largest exponent stays finite. *)
Lemma binary_round_top (s : bool) (d : positive) (ez M : Z) :
  ez <= emax - prec ->
  Z.pos (digits2_pos d) + ez = emax ->
  Z.pos d < M * 2 ^ (emax - prec - ez) ->
  M < 2 ^ prec ->
  below emax (binary_round prec emax s d ez).
Proof.
  intros Hez Hd Hlt HM.
  assert (Hf : fexp prec emax emax = emax - prec) by reflexivity.
  unfold binary_round. rewrite Hd, Hf.
  assert (Hal : shl_align d ez (emax - prec) = (d, ez))
    by (unfold shl_align; destruct (emax - prec - ez) eqn:E; try reflexivity; lia).
  rewrite Hal. unfold binary_round_aux.
  destruct (shr_fexp_spec (Z.pos d) ez loc_Exact ltac:(lia)) as [Hm1 He1].
  destruct (shr_fexp prec emax (Z.pos d) ez loc_Exact) as [mrs' e1].
  cbn [fst snd Zdigits2] in Hm1, He1.
  rewrite Hd, Hf in Hm1, He1.
  rewrite Z.max_r in Hm1, He1 by lia.
  assert (Hp1 : 0 < 2 ^ (emax - prec - ez)) by (apply Z.pow_pos_nonneg; lia).
  assert (Hm1lo : 0 <= shr_m mrs') by (rewrite Hm1; apply Z.div_pos; lia).
  assert (Hm1hi : shr_m mrs' < M)
    by (rewrite Hm1; apply Z.div_lt_upper_bound; lia).
  pose proof (round_nearest_even_bounds (shr_m mrs') (loc_of_shr_record mrs')) as Hr.
  set (m2 := round_nearest_even (shr_m mrs') (loc_of_shr_record mrs')) in *.
  assert (Hm2 : 0 <= m2) by lia.
  assert (Hd2 : Zdigits2 m2 <= prec)
    by (apply Zdigits2_le_iff; [lia | unfold prec; lia | lia]).
  pose proof (Zdigits2_nonneg m2) as Hd2'.
  destruct (shr_fexp_spec m2 e1 loc_Exact Hm2) as [Hm3 He3].
  destruct (shr_fexp prec emax m2 e1 loc_Exact) as [mrs'' e3].
  cbn [fst snd] in Hm3, He3.
  assert (Hn2 : Z.max 0 (fexp prec emax (Zdigits2 m2 + e1) - e1) = 0)
    by (unfold fexp, SpecFloat.emin, emax, prec in *; lia).
  rewrite Hn2 in Hm3, He3. rewrite Z.div_1_r in Hm3.
  rewrite Hm3. destruct m2 as [|m|m]; cbn [below]; trivial.
  replace (e3 <=? emax - prec) with true
    by (symmetry; apply Z.leb_le; unfold emax, prec in *; lia).
  cbn [below]. cbn [Zdigits2] in Hd2. unfold emax, prec in *. lia.
Qed.

(** The difference of two finite numbers with a clear sign bit is finite. *)
Lemma SFsub_below (mo : positive) (eo : Z) (mh : positive) (eh : Z) :
  valid_binary (S754_finite false mo eo) = true ->
  valid_binary (S754_finite false mh eh) = true ->
  below emax (SF64sub (S754_finite false mo eo) (S754_finite false mh eh)).
Proof.
  intros Vo Vh. apply valid_binary_digits in Vo, Vh.
  destruct Vo as [Hdo Heo], Vh as [Hdh Heh].
  unfold SF64sub, SFsub. cbn [cond_Zopp].
  set (ez := Z.min eo eh).
  pose proof (shl_align_digits mo eo ez ltac:(lia)) as Ho.
  pose proof (shl_align_digits mh eh ez ltac:(lia)) as Hh.
  pose proof (shl_align_value mo eo ez ltac:(lia)) as Vo.
  pose proof (shl_align_value mh eh ez ltac:(lia)) as Vh.
  set (mo' := fst (shl_align mo eo ez)) in *.
  set (mh' := fst (shl_align mh eh ez)) in *.
  assert (Htop : forall (s : bool) (d m' m : positive) (e : Z),
             Z.pos d < Z.pos m' ->
             Z.pos (digits2_pos m') = Z.pos (digits2_pos m) + (e - ez) ->
             Z.pos m' = Z.pos m * 2 ^ (e - ez) ->
             Z.pos (digits2_pos m) <= prec -> e <= emax - prec -> ez <= e ->
             below emax (binary_round prec emax s d ez)).
  { intros s d m' m e Hlt Hdig Hval Hdm He Hez.
    pose proof (Zdigits2_mono (Z.pos d) (Z.pos m') ltac:(lia)) as Hmono.
    cbn [Zdigits2] in Hmono.
    destruct (Z_le_gt_dec (Z.pos (digits2_pos d) + ez) (emax - 1)) as [Hle|Hgt].
    - assert (Hb : below (emax - 1 + 1) (binary_round prec emax s d ez))
        by (apply binary_round_below; unfold emax, prec, SpecFloat.emin in *; lia).
      exact Hb.
    - assert (He' : e = emax - prec) by (unfold emax, prec in *; lia).
      apply binary_round_top with (M := Z.pos m).
      + unfold emax, prec in *. lia.
      + unfold emax, prec in *. lia.
      + rewrite <- He', <- Hval. exact Hlt.
      + apply Zdigits2_le_iff; [lia | unfold prec; lia | exact Hdm]. }
  destruct (Z.pos mo' - Z.pos mh') as [|d|d] eqn:Hd; cbn [binary_normalize below].
  - trivial.
  - apply (Htop false d mo' mo eo); try assumption; unfold ez; lia.
  - apply (Htop true d mh' mh eh); try assumption; unfold ez; lia.
Qed.

Import Core.
Open Scope float_scope.

Lemma sub_finite (o h : float) :
  nan_or_sign false (Prim2SF o) ->
  nan_or_sign false (Prim2SF h) ->
  is_finite o = true -> is_finite h = true ->
  is_finite (o - h) = true.
Proof.
  rewrite !is_finite_spec, sub_spec. intros Ho Hh Fo Fh.
  pose proof (Prim2SF_valid o) as Vo. pose proof (Prim2SF_valid h) as Vh.
  destruct (Prim2SF o) as [so|so| |so mo eo], (Prim2SF h) as [sh|sh| |sh mh eh];
    cbn [nan_or_sign] in Ho, Hh; subst; try discriminate; try reflexivity.
  pose proof (SFsub_below mo eo mh eh Vo Vh) as Hb.
  pose proof (SFsub_finite_not_nan false mo eo false mh eh) as Hn.
  now destruct (SF64sub (S754_finite false mo eo) (S754_finite false mh eh)).
Qed.

(** X18: where the area of the outer ring and the summed area of the holes
    are finite, every value [polygon_metrics] returns is finite: the
    subtraction cannot overflow, and the percentage is neither NaN nor
    infinite. *)
Theorem finite_areas_finite_metrics (outer : ring) (holes : list ring)
        (polygon_area hole_area hole_pct : float) :
  polygon_metrics (outer :: holes) = Returns (polygon_area, hole_area, hole_pct) ->
  is_finite (ring_area outer) = true ->
  is_finite hole_area = true ->
  is_finite polygon_area = true /\ is_finite hole_pct = true.
Proof.
  intros Hm Fo Fh.
  destruct (hole_percent_nan_inf _ _ _ _ Hm) as [Hn Hi].
  rewrite polygon_metrics_cons in Hm. injection Hm as Hpa Hha _.
  unfold Spec.polygon_area, Spec.outer_area, Spec.hole_area in Hpa, Hha.
  cbn [nth skipn] in Hpa, Hha.
  assert (Fp : is_finite polygon_area = true).
  { rewrite <- Hpa. apply sub_finite.
    - apply ring_area_sign.
    - apply hole_area_sign.
    - exact Fo.
    - now rewrite Hha. }
  split; [exact Fp|].
  unfold is_finite in *. rewrite Hn, Hi.
  apply negb_true_iff in Fp. apply orb_false_elim in Fp. destruct Fp as [-> _].
  reflexivity.
Qed.

Lemma finite_areas_finite_metrics_witness :
  polygon_metrics Examples.holed_square = Returns (96, 4, 0x1.0aaaaaaaaaaaap+2)
  /\ is_finite 96 = true /\ is_finite 0x1.0aaaaaaaaaaaap+2 = true.
Proof.
  split; [reflexivity|].
  exact (finite_areas_finite_metrics [(0, 0); (10, 0); (10, 10); (0, 10)]
                                     [[(1, 1); (3, 1); (3, 3); (1, 3)]]
                                     96 4 0x1.0aaaaaaaaaaaap+2
                                     eq_refl eq_refl eq_refl).
Defined.

End FiniteMetrics.

(** ** Inputs that raise *)

Section RaisingInputs.

Open Scope Z_scope.

Variable s : summation.

Lemma collection_with_raising_feature (before after : list json) (feat : json) :
  (forall index : Z, run_ending (feature s index feat) = Raised) ->
  snd (process_document s (Spec.feature_collection (before ++ feat :: after)))
  = Raised.
Proof.
  intros Hfeat. rewrite process_collection, each_feature_app. cbn [snd].
  destruct (each_feature s 0 before) as [[i items] [|]]; [|reflexivity].
  cbn [each_feature]. specialize (Hfeat i).
  destruct (feature s i feat) as [[i' items'] e]. cbn in Hfeat. subst e.
  reflexivity.
Qed.

(** X19: a feature whose [geometry] member is present but is not an object,
    [null] included, raises before the counter moves; a collection that
    holds such a feature anywhere never runs to its end. *)
Theorem geometry_not_an_object (members : list (string * json)) (g : json) :
  Py.dict_get members "geometry" = Some g ->
  (forall geom : list (string * json), g <> JObj geom) ->
  (forall index : Z, feature s index (JObj members) = (index, [], Raised))
  /\ (forall before after : list json,
         snd (process_document s
                (Spec.feature_collection (before ++ JObj members :: after)))
         = Raised).
Proof.
  intros Hg Hno.
  assert (Hfeat : forall index : Z, feature s index (JObj members) = (index, [], Raised)).
  { intros index. unfold feature. cbn [Py.get bind]. rewrite Hg.
    destruct g as [| | | | | |geom]; try reflexivity.
    now destruct (Hno geom). }
  split; [exact Hfeat|].
  intros before after. apply collection_with_raising_feature.
  intros index. now rewrite Hfeat.
Qed.

Lemma all_raises {A B : Type} (f : A -> result B) (l : list A) (a : A) :
  In a l -> f a = Raises -> Py.all f l = Raises.
Proof.
  intros Hin Ha. induction l as [|b l IH]; [contradiction|].
  cbn [Py.all]. destruct Hin as [->|Hin].
  - now rewrite Ha.
  - rewrite (IH Hin). now destruct (f b).
Qed.

(** X20: a position that is not a list of exactly two coordinates, such as
    [[x, y, z]], makes [polygon_metrics] raise on the polygon that holds
    it, whatever its other rings and positions are; as a [Polygon] feature
    it raises after the counter was advanced and yields nothing. *)
Theorem position_not_a_pair (rings : list json) (positions coords : list json) :
  In (JArr positions) rings ->
  In (JArr coords) positions ->
  length coords <> 2%nat ->
  polygon_metrics_of s (JArr rings) = Raises
  /\ (forall index : Z,
         feature s index
                 (JObj [("geometry", JObj [("type", JStr "Polygon");
                                           ("coordinates", JArr rings)])]%string)
         = (index + 1, [], Raised)).
Proof.
  intros Hring Hpos Hlen.
  assert (Hv : Py.vertex_of (JArr coords) = Raises).
  { destruct coords as [|a [|b [|c rest]]]; try reflexivity.
    now destruct Hlen. }
  assert (Hr : Py.ring_of (JArr positions) = Raises).
  { unfold Py.ring_of. destruct positions as [|p ps]; [contradiction|].
    cbn [Py.truthy]. exact (all_raises Py.vertex_of (p :: ps) _ Hpos Hv). }
  assert (Hm : polygon_metrics_of s (JArr rings) = Raises).
  { unfold polygon_metrics_of, Py.rings_of. destruct rings as [|r rs]; [contradiction|].
    cbn [Py.truthy]. now rewrite (all_raises Py.ring_of (r :: rs) _ Hring Hr). }
  split; [exact Hm|].
  intros index. unfold feature.
  cbn [Py.get Py.dict_get fold_left fst snd String.eqb Ascii.eqb Bool.eqb bind
       Py.eq_str].
  now rewrite Hm.
Qed.

End RaisingInputs.

Section RaisingInputsExamples.

Open Scope Z_scope.

Lemma geometry_not_an_object_witness :
  feature Plain 2 (JObj [("type", JStr "Feature"); ("geometry", JNull)]%string)
  = (2, [], Raised)
  /\ snd (process_document Plain
            (Spec.feature_collection
               ([Spec.polygon_feature [Examples.square_ccw]]
                ++ JObj [("type", JStr "Feature"); ("geometry", JNull)]%string
                   :: [])))
     = Raised.
Proof.
  destruct (geometry_not_an_object
              Plain [("type", JStr "Feature"); ("geometry", JNull)]%string JNull eq_refl)
    as [Hf Hc]; [discriminate|].
  split; [apply Hf | apply Hc].
Defined.

Lemma position_not_a_pair_witness :
  feature Plain 0 Examples.raised_triangle = (1, [], Raised).
Proof.
  refine (proj2 (position_not_a_pair
                   Plain [JArr [JArr [JNum 0; JNum 0; JNum 5];
                          JArr [JNum 4; JNum 0; JNum 5];
                          JArr [JNum 0; JNum 3; JNum 5]]]
                   [JArr [JNum 0; JNum 0; JNum 5];
                    JArr [JNum 4; JNum 0; JNum 5];
                    JArr [JNum 0; JNum 3; JNum 5]]
                   [JNum 0; JNum 0; JNum 5] _ _ _) 0).
  - left; reflexivity.
  - left; reflexivity.
  - discriminate.
Defined.

End RaisingInputsExamples.

(** ** The integer zero among the hole areas *)

Section IntegerZero.

Variable s : summation.

Lemma all_length {A B : Type} (f : A -> result B) (l : list A) (l' : list B) :
  Py.all f l = Returns l' -> length l' = length l.
Proof.
  revert l'; induction l as [|a l IH]; intros l'; cbn [Py.all].
  - now intros [= <-].
  - destruct (f a) as [b|]; [|discriminate]. cbn [bind].
    destruct (Py.all f l) as [bs|]; [|discriminate]. cbn [bind].
    intros [= <-]. cbn [length]. now rewrite (IH bs eq_refl).
Qed.

(** X22: the hole area that [polygon_metrics] returns is an [int] exactly
    when the polygon has exactly one ring, and it is then the integer 0,
    which the report shows as [0]; in every other case, a polygon without
    any ring included, it is a float. *)
Theorem hole_area_int (coords : json) (polygon_area hole_pct : float)
        (hole_area : number) :
  polygon_metrics_of s coords = Returns (polygon_area, hole_area, hole_pct) ->
  ((exists ring : json, coords = JArr [ring]) <-> hole_area = Int 0)
  /\ ((exists n : Z, hole_area = Int n) -> hole_area = Int 0).
Proof.
  unfold polygon_metrics_of, Py.rings_of.
  destruct (Py.truthy coords) eqn:Ht.
  - destruct coords as [| | | | |items|]; try discriminate.
    destruct items as [|outer holes]; [discriminate|].
    destruct (Py.all Py.ring_of (outer :: holes)) as [rings|] eqn:Hall;
      [|discriminate].
    pose proof (all_length _ _ _ Hall) as Hlen.
    destruct rings as [|r rs]; [discriminate|]. cbn [bind Py.polygon_metrics].
    destruct (Py.ring_area r) as [a|]; [|discriminate]. cbn [bind].
    destruct (Py.all Py.ring_area rs) as [areas|] eqn:Hareas; [|discriminate].
    pose proof (all_length _ _ _ Hareas) as Hlen'. cbn [bind].
    destruct (as_float (Py.sum s areas)) as [h|]; [|discriminate]. cbn [bind].
    intros H.
    assert (Hh : hole_area = Py.sum s areas).
    { destruct (a - h <=? 0)%float; [now injection H|].
      destruct (Core.py_truediv h (a - h)); [|discriminate]. now injection H. }
    subst hole_area. cbn [length] in Hlen.
    destruct areas as [|x areas]; cbn [Py.sum].
    + destruct rs; [|discriminate]. destruct holes; [|discriminate].
      split; [|reflexivity]. split; [reflexivity | intros _; now exists outer].
    + destruct rs as [|r' rs]; [discriminate|].
      destruct holes as [|hole holes]; [discriminate|].
      split; [|intros [n Hn]; discriminate].
      split; [intros [ring Hring]; discriminate | discriminate].
  - intros [= <- <- <-].
    split; [|intros [n Hn]; discriminate].
    split; [|discriminate].
    intros [ring ->]. discriminate.
Qed.

End IntegerZero.

Section IntegerExamples.

Import Examples.

Lemma hole_area_int_witness :
  ((exists ring : json, Spec.json_of_rings [square_ccw] = JArr [ring])
   <-> Int 0 = Int 0)
  /\ ((exists n : Z, Int 0 = Int n) -> Int 0 = Int 0).
Proof.
  exact (hole_area_int Plain (Spec.json_of_rings [square_ccw]) 16%float 0%float
                       (Int 0) eq_refl).
Defined.

(** Integer coordinates are multiplied and subtracted exactly, and only the
    difference is rounded: with [a = 94906267], whose square is odd and
    larger than [2 ** 53], the ring [(a, a - 1), (a + 1, a), (0, 0)] has
    area [0.5]; with the same coordinates as floats each product is rounded
    first, and the area is [0.0]. *)
Lemma integer_products_exact :
  Py.ring_area [(Int 94906267, Int 94906266); (Int 94906268, Int 94906267);
                (Int 0, Int 0)]
  = Returns 0.5%float
  /\ Py.ring_area [(Float 94906267, Float 94906266); (Float 94906268, Float 94906267);
                   (Float 0, Float 0)]
     = Returns 0%float.
Proof. split; vm_compute; reflexivity. Qed.

End IntegerExamples.
